(** * Anonymous electronic cash with double-spend detection

    A shallow embedding of [Lab 5/coin.js] (class [Coin]) and
    [Lab 5/driver.js] ([signCoin], [parseCoin], [acceptCoin],
    [determineCheater] and the demo that ends the file), together with
    the properties of the coin life cycle, the merchant acceptance
    protocol and the reconciliation of two merchant reports.

    Conventions of the embedding.
    - A JavaScript string is a [string]: the sequence of the bytes of its
      UTF-8 encoding.  [Buffer.from(s)] and [buf.toString()] are then the
      two directions of the identification of [string] with [list ascii]
      (the replacement of malformed UTF-8 by U+FFFD is not modelled; the
      ASCII characters the code inspects, the tag and [':'], are not
      affected by it).
    - A [Buffer] is a [list ascii] (a list of bytes).
    - A thrown [Error] is its message.
    - Numbers are integers ([Z]); non-integral numbers and NaN are not
      modelled. *)

From Stdlib Require Import String Ascii List Bool ZArith Lia DecimalString.
Import ListNotations.
Local Open Scope string_scope.
Local Open Scope bool_scope.

Set Implicit Arguments.

(* ================================================================== *)
(** * JavaScript values *)
(* ================================================================== *)

(** The values that reach the constructor's arguments and the fields the
    blind-signature library fills: [undefined], [null], numbers, strings
    and the library's big-integer objects. *)
Inductive value : Type :=
| VUndefined
| VNull
| VNum (z : Z)
| VStr (s : string)
| VBig (z : Z).

(** ToBoolean: the test behind [!x].  Objects are always truthy. *)
Definition truthy (v : value) : bool :=
  match v with
  | VUndefined | VNull => false
  | VNum z => negb (z =? 0)%Z
  | VStr s => negb (s =? "")
  | VBig _ => true
  end.

(** Decimal rendering of an integer, as a template literal prints it. *)
Definition string_of_Z (z : Z) : string :=
  NilZero.string_of_int (Z.to_int z).

(** ToString, the conversion a template literal applies. *)
Definition to_string (v : value) : string :=
  match v with
  | VUndefined => "undefined"
  | VNull => "null"
  | VNum z => string_of_Z z
  | VStr s => s
  | VBig z => string_of_Z z
  end.

(** The outcome of a call: a returned value or a thrown error message. *)
Inductive result (A : Type) : Type :=
| Ok (a : A)
| Throw (msg : string).
Arguments Ok {A} a.
Arguments Throw {A} msg.

(* ================================================================== *)
(** * Strings: [split], [join], [startsWith] *)
(* ================================================================== *)

(** [s.split(sep)] for a one-character separator. *)
Fixpoint split (sep : ascii) (s : string) : list string :=
  match s with
  | EmptyString => [EmptyString]
  | String c s' =>
      if (c =? sep)%char then EmptyString :: split sep s'
      else match split sep s' with
           | [] => [String c EmptyString]
           | x :: xs => String c x :: xs
           end
  end.

(** [arr.join(sep)] on an array of strings. *)
Definition join (sep : string) (l : list string) : string := String.concat sep l.

(** [s.startsWith(p)]. *)
Definition startsWith (p s : string) : bool := String.prefix p s.

(** Does the character occur in the string? *)
Fixpoint occurs (c : ascii) (s : string) : bool :=
  match s with
  | EmptyString => false
  | String d s' => (d =? c)%char || occurs c s'
  end.

(* ================================================================== *)
(** * Buffers: XOR and hexadecimal encoding *)
(* ================================================================== *)

Definition Buffer : Type := list ascii.

(** [Buffer.from(s)] *)
Definition Buffer_from (s : string) : Buffer := list_ascii_of_string s.

(** [buf.toString()] *)
Definition Buffer_toString (b : Buffer) : string := string_of_list_ascii b.

(** [a ^ b] on two bytes. *)
Definition xor_byte (a b : ascii) : ascii :=
  match a, b with
  | Ascii a0 a1 a2 a3 a4 a5 a6 a7, Ascii b0 b1 b2 b3 b4 b5 b6 b7 =>
      Ascii (xorb a0 b0) (xorb a1 b1) (xorb a2 b2) (xorb a3 b3)
            (xorb a4 b4) (xorb a5 b5) (xorb a6 b6) (xorb a7 b7)
  end.

(** Byte-wise XOR over the overlapping length of two buffers. *)
Fixpoint xor_buffers (a b : Buffer) : Buffer :=
  match a, b with
  | x :: a', y :: b' => xor_byte x y :: xor_buffers a' b'
  | _, _ => []
  end.

(** One lower-case hexadecimal digit for a value below 16. *)
Definition hex_digit (n : N) : ascii :=
  match n with
  | 0 => "0" | 1 => "1" | 2 => "2" | 3 => "3" | 4 => "4" | 5 => "5"
  | 6 => "6" | 7 => "7" | 8 => "8" | 9 => "9" | 10 => "a" | 11 => "b"
  | 12 => "c" | 13 => "d" | 14 => "e" | _ => "f"
  end%N%char.

(** The value of a hexadecimal digit (either case), if it is one. *)
Definition hex_value (c : ascii) : option N :=
  let n := N_of_ascii c in
  if ((48 <=? n) && (n <=? 57))%N then Some (n - 48)%N
  else if ((97 <=? n) && (n <=? 102))%N then Some (n - 87)%N
  else if ((65 <=? n) && (n <=? 70))%N then Some (n - 55)%N
  else None.

(** [buf.toString('hex')]: two lower-case digits per byte. *)
Fixpoint hex_encode (b : Buffer) : string :=
  match b with
  | [] => EmptyString
  | c :: b' =>
      let n := N_of_ascii c in
      String (hex_digit (n / 16)) (String (hex_digit (n mod 16)) (hex_encode b'))
  end.

(** [Buffer.from(s, 'hex')]: decodes pairs of digits and stops at the
    first pair that is not hexadecimal; an odd last character is
    dropped. *)
Fixpoint hex_decode (s : string) : Buffer :=
  match s with
  | String h (String l s') =>
      match hex_value h, hex_value l with
      | Some x, Some y => ascii_of_N (16 * x + y) :: hex_decode s'
      | _, _ => []
      end
  | _ => []
  end.

(* ================================================================== *)
(** * [JSON.stringify] on an array of strings *)
(* ================================================================== *)

(** The escape of one character inside a JSON string literal. *)
Definition json_escape (c : ascii) : string :=
  let n := N_of_ascii c in
  if (n =? 34)%N then "\" ++ String c ""            (* the double quote *)
  else if (n =? 92)%N then "\\"
  else if (n =? 8)%N then "\b"
  else if (n =? 9)%N then "\t"
  else if (n =? 10)%N then "\n"
  else if (n =? 12)%N then "\f"
  else if (n =? 13)%N then "\r"
  else if (n <? 32)%N then
    "\u00" ++ String (hex_digit (n / 16)) (String (hex_digit (n mod 16)) "")
  else String c "".

Fixpoint json_escape_string (s : string) : string :=
  match s with
  | EmptyString => EmptyString
  | String c s' => json_escape c ++ json_escape_string s'
  end.

Definition dquote : ascii := ascii_of_N 34.

(** A string as a JSON string literal. *)
Definition json_quote (s : string) : string :=
  String dquote (json_escape_string s ++ String dquote "").

Fixpoint json_elements (l : list string) : string :=
  match l with
  | [] => ""
  | [x] => json_quote x
  | x :: xs => json_quote x ++ "," ++ json_elements xs
  end.

(** [JSON.stringify(arr)] for an array of strings. *)
Definition JSON_stringify (l : list string) : string :=
  "[" ++ json_elements l ++ "]".

Definition backslash : ascii := ascii_of_N 92.

(** Reading one escaped character back from the front of a string. *)
Definition json_unescape (s : string) : option (ascii * string) :=
  match s with
  | EmptyString => None
  | String c rest =>
      if (c =? dquote)%char then None
      else if (c =? backslash)%char then
        match rest with
        | EmptyString => None
        | String d rest' =>
            if (d =? dquote)%char then Some (dquote, rest')
            else if (d =? backslash)%char then Some (backslash, rest')
            else if (d =? "b")%char then Some (ascii_of_N 8, rest')
            else if (d =? "t")%char then Some (ascii_of_N 9, rest')
            else if (d =? "n")%char then Some (ascii_of_N 10, rest')
            else if (d =? "f")%char then Some (ascii_of_N 12, rest')
            else if (d =? "r")%char then Some (ascii_of_N 13, rest')
            else
              match rest' with
              | String _ (String _ (String h (String l r))) =>
                  match hex_value h, hex_value l with
                  | Some x, Some y => Some (ascii_of_N (16 * x + y), r)
                  | _, _ => None
                  end
              | _ => None
              end
        end
      else Some (c, rest)
  end.

(* ================================================================== *)
(** * External capabilities and the world they act on *)
(* ================================================================== *)

(** The calls the coin code makes to code outside the two modules. *)
Inductive Event : Type :=
| EvMakeGUID
| EvMakeOTP (plaintext : string)
| EvBlind (message : string)
| EvRandInt (range : N).

(** The world is the journal of the external calls made so far, oldest
    first.  A source of randomness is consulted at the current length of
    the journal, so that successive draws are independent inputs. *)
Definition World : Type := list Event.

(** The number of external calls made so far. *)
Definition calls (w : World) : nat := List.length w.

(** Journal one more call. *)
Definition journal (ev : Event) (w : World) : World := (w ++ [ev])%list.

(** What the code takes from outside: the random sources behind
    [utils.js], the hash, and the [blind-signatures] package.  The
    package's functions may throw, hence [result]; [bs_verify] follows
    its contract and answers with a boolean. *)
Record Platform : Type := {
  random_guid : nat -> string;
  random_byte : nat -> nat -> ascii;
  random_nat : nat -> N;
  hash : Buffer -> string;
  bs_blind : nat -> string -> value -> value -> result (value * value);
  bs_unblind : value -> value -> value -> result value;
  bs_verify : value -> value -> value -> string -> bool
}.

(** Computations that read and extend the journal and may throw.  What
    was journalled before a throw stays journalled. *)
Definition M (A : Type) : Type := World -> result A * World.

Definition ret {A} (a : A) : M A := fun w => (Ok a, w).

Definition throw {A} (msg : string) : M A := fun w => (Throw msg, w).

Definition bind {A B} (m : M A) (k : A -> M B) : M B :=
  fun w =>
    match m w with
    | (Ok a, w') => k a w'
    | (Throw msg, w') => (Throw msg, w')
    end.

(** [try { m } catch (err) { handler(err.message) }] *)
Definition try_catch {A} (m : M A) (handler : string -> M A) : M A :=
  fun w =>
    match m w with
    | (Ok a, w') => (Ok a, w')
    | (Throw msg, w') => handler msg w'
    end.

(** A call that cannot touch the world. *)
Definition lift {A} (r : result A) : M A := fun w => (r, w).

Notation "x <- m ;; k" := (bind m (fun x => k))
  (at level 61, m at next level, right associativity).
Notation "' pat <- m ;; k" := (bind m (fun x => match x with pat => k end))
  (at level 61, pat pattern, m at next level, right associativity).

Definition COIN_RIS_LENGTH : nat := 20.
Definition IDENT_STR : string := "IDENT".
Definition BANK_STR : string := "ELECTRONIC_PIGGYBANK".

Section WithPlatform.

Variable P : Platform.

(* ---------------------------------------------------------------- *)
(** ** [utils.js] *)
(* ---------------------------------------------------------------- *)

(** Modelled from the spec: [utils.makeGUID] is not among the sources;
    the spec only says that a fresh globally unique identifier is
    generated at construction.  It is drawn from the platform. *)
Definition makeGUID : M string :=
  fun w => (Ok (random_guid P (calls w)), journal (EvMakeGUID) w).

(** Modelled from the spec: [utils.makeOTP] is not among the sources.
    By the spec, [makeOTP(plaintext) -> (key, ciphertext)] with
    [ciphertext = plaintext XOR key] and a key drawn independently for
    each call, as long as the plaintext. *)
Definition makeOTP (plaintext : string) : M (Buffer * Buffer) :=
  fun w =>
    let buffer := Buffer_from plaintext in
    let key := map (random_byte P (calls w)) (seq 0 (List.length buffer)) in
    (Ok (key, xor_buffers buffer key), journal (EvMakeOTP plaintext) w).

(** Modelled from the spec: [utils.decryptOTP] is not among the sources.
    By the spec, [decrypt(key, ciphertext) -> plaintext] is XOR over the
    overlapping length; with [returnType: 'string'] the plaintext comes
    back as a string. *)
Definition decryptOTP (key ciphertext : Buffer) : string :=
  Buffer_toString (xor_buffers key ciphertext).

(** Modelled from the spec: [utils.randInt] is not among the sources.
    [randInt(range)] draws an integer in [[0, range)]. *)
Definition randInt (range : N) : M N :=
  fun w => (Ok (random_nat P (calls w) mod range)%N, journal (EvRandInt range) w).

(* ---------------------------------------------------------------- *)
(** ** [coin.js]: class [Coin] *)
(* ---------------------------------------------------------------- *)

Record Coin : Type := mkCoin {
  amount : value;
  n : value;
  e : value;
  guid : string;
  leftIdent : list Buffer;
  rightIdent : list Buffer;
  coinString : string;
  blinded : value;
  blindingFactor : value;
  signature : value
}.

(** [toString()] *)
Definition toString (c : Coin) : string := coinString c.

(** The assignment [coin.signature = s]. *)
Definition set_signature (s : value) (c : Coin) : Coin :=
  mkCoin (amount c) (n c) (e c) (guid c) (leftIdent c) (rightIdent c)
         (coinString c) (blinded c) (blindingFactor c) s.

(** The two assignments at the end of [blind()]. *)
Definition set_blinding (b r : value) (c : Coin) : Coin :=
  mkCoin (amount c) (n c) (e c) (guid c) (leftIdent c) (rightIdent c)
         (coinString c) b r (signature c).

(** [blind()] *)
Definition blind (c : Coin) : M Coin :=
  try_catch
    (fun w =>
       match bs_blind P (calls w) (toString c) (n c) (e c) with
       | Throw msg => (Throw msg, journal (EvBlind (toString c)) w)
       | Ok (b, r) =>
           if negb (truthy b) || negb (truthy r)
           then (Throw "Blinding returned invalid values", journal (EvBlind (toString c)) w)
           else (Ok (set_blinding b r c), journal (EvBlind (toString c)) w)
       end)
    (fun msg => throw ("Blinding failed: " ++ msg)).

(** [unblind()] *)
Definition unblind (c : Coin) : result Coin :=
  let body :=
    if negb (truthy (signature c)) then Throw "No signature to unblind"
    else
      match bs_unblind P (signature c) (n c) (blindingFactor c) with
      | Throw msg => Throw msg
      | Ok s =>
          if negb (truthy s) then Throw "Unblinding failed"
          else Ok (set_signature s c)
      end in
  match body with
  | Ok c' => Ok c'
  | Throw msg => Throw ("Unblinding failed: " ++ msg)
  end.

(** [getRis(isLeft, i)].  The inner [option] is [None] for [undefined],
    the value of an array read past its end. *)
Definition getRis (c : Coin) (isLeft : bool) (i : Z) : result (option Buffer) :=
  if ((i <? 0) || (i >=? Z.of_nat COIN_RIS_LENGTH))%Z
  then Throw ("RIS index out of bounds: " ++ string_of_Z i)
  else Ok (if isLeft then nth_error (leftIdent c) (Z.to_nat i)
           else nth_error (rightIdent c) (Z.to_nat i)).

(** The state of the constructor's [for] loop: [this.leftIdent],
    [leftHashes], [this.rightIdent], [rightHashes]. *)
Record Commitments : Type := mkCommitments {
  cm_leftIdent : list Buffer;
  cm_leftHashes : list string;
  cm_rightIdent : list Buffer;
  cm_rightHashes : list string
}.

(** One pass through the body of the loop.  The test
    [!key || !ciphertext] is on two Buffers, which are objects and so
    never falsy: it cannot throw. *)
Definition commit_step (purchaser : value) (cm : Commitments) : M Commitments :=
  ' (key, ciphertext) <- makeOTP (IDENT_STR ++ ":" ++ to_string purchaser) ;;
  ret (mkCommitments (cm_leftIdent cm ++ [key])
                     (cm_leftHashes cm ++ [hash P key])
                     (cm_rightIdent cm ++ [ciphertext])
                     (cm_rightHashes cm ++ [hash P ciphertext])).

(** [for (let i = 0; i < COIN_RIS_LENGTH; i++)], by the passes left. *)
Fixpoint commit_loop (passes : nat) (purchaser : value) (cm : Commitments)
  : M Commitments :=
  match passes with
  | O => ret cm
  | S passes' =>
      cm' <- commit_step purchaser cm ;;
      commit_loop passes' purchaser cm'
  end.

(** The commitment string of line 37. *)
Definition make_coinString (amount : value) (guid : string)
           (leftHashes rightHashes : list string) : string :=
  BANK_STR ++ "-" ++ to_string amount ++ "-" ++ guid ++ "-"
           ++ join "," leftHashes ++ "-" ++ join "," rightHashes.

(** [new Coin(purchaser, amount, n, e)] *)
Definition construct (purchaser amount n e : value) : M Coin :=
  if negb (truthy purchaser) || negb (truthy amount)
     || negb (truthy n) || negb (truthy e)
  then throw "Missing required coin parameters"
  else
    guid <- makeGUID ;;
    try_catch
      (cm <- commit_loop COIN_RIS_LENGTH purchaser (mkCommitments [] [] [] []) ;;
       blind (mkCoin amount n e guid (cm_leftIdent cm) (cm_rightIdent cm)
                     (make_coinString amount guid (cm_leftHashes cm)
                                      (cm_rightHashes cm))
                     VUndefined VUndefined VUndefined))
      (fun msg => throw ("Coin creation failed: " ++ msg)).

(* ---------------------------------------------------------------- *)
(** ** [driver.js] *)
(* ---------------------------------------------------------------- *)

(** The bank's public key, the module constants [N] and [E]. *)
Variable BANK_N BANK_E : value.

(** [opt !== s], where [None] stands for [undefined]. *)
Definition differs (opt : option string) (s : string) : bool :=
  match opt with
  | Some t => negb (t =? s)
  | None => true
  end.

(** [parseCoin(s)].  The five names are bound to the first five pieces
    of the split, [undefined] where there is none; calling [split] on
    [undefined] is a TypeError. *)
Definition parseCoin (s : string) : result (list string * list string) :=
  let pieces := split "-" s in
  let cnst := nth_error pieces 0 in
  let leftHashes := nth_error pieces 3 in
  let rightHashes := nth_error pieces 4 in
  if differs cnst BANK_STR
  then Throw ("Invalid identity string: "
              ++ match cnst with Some t => t | None => "undefined" end
              ++ " received, but " ++ BANK_STR ++ " expected")
  else
    match leftHashes, rightHashes with
    | Some lhs, Some rhs => Ok (split "," lhs, split "," rhs)
    | _, _ => Throw "Cannot read properties of undefined (reading 'split')"
    end.

(** The [for] loop of [acceptCoin], by the passes left, at index [i]
    with the report [ris] built so far.  Hashing [undefined] is taken to
    be the TypeError that converting it to a string raises. *)
Fixpoint accept_loop (passes i : nat) (coin : Coin)
         (leftHashes rightHashes : list string) (ris : list string)
  : M (list string) :=
  match passes with
  | O => ret ris
  | S passes' =>
      r <- randInt 2 ;;
      let isLeft := (r =? 0)%N in
      risElement <- lift (getRis coin isLeft (Z.of_nat i)) ;;
      let expectedHash :=
        if isLeft then nth_error leftHashes i else nth_error rightHashes i in
      match risElement with
      | None => throw "Cannot read properties of undefined (reading 'toString')"
      | Some buf =>
          if differs expectedHash (hash P buf)
          then throw ("RIS hash mismatch at position " ++ string_of_Z (Z.of_nat i))
          else accept_loop passes' (S i) coin leftHashes rightHashes
                           (ris ++ [hex_encode buf])
      end
  end.

(** [acceptCoin(coin)] *)
Definition acceptCoin (coin : Coin) : M (list string) :=
  let isValid := bs_verify P (signature coin) BANK_N BANK_E (toString coin) in
  if negb isValid then throw "Invalid coin signature"
  else
    ' (leftHashes, rightHashes) <- lift (parseCoin (toString coin)) ;;
    accept_loop COIN_RIS_LENGTH 0 coin leftHashes rightHashes [].

(** What [determineCheater] concludes.  The identity is [None] when the
    code reads [undefined] for it. *)
Inductive Outcome : Type :=
| MerchantCheated
| PurchaserCheated (purchaser : option string)
| Undetermined.

(** The line [determineCheater] logs for each conclusion. *)
Definition console_log (guid : string) (o : Outcome) : string :=
  match o with
  | MerchantCheated => "Coin " ++ guid ++ ": Merchant is cheating!"
  | PurchaserCheated p =>
      "Coin " ++ guid ++ ": Purchaser "
              ++ match p with Some t => t | None => "undefined" end
              ++ " is cheating!"
  | Undetermined => "Coin " ++ guid ++ ": Unable to determine who cheated"
  end.

(** How one pass through the body of the scanning loop ends. *)
Inductive Pass : Type :=
| Continue
| Return (purchaser : option string).

(** The body of the [try] block at index [i].  [Buffer.from] throws a
    TypeError on [undefined], the value of a report read past its end. *)
Definition try_index (ris1 ris2 : list string) (i : nat) : result Pass :=
  match nth_error ris1 i, nth_error ris2 i with
  | Some s1, Some s2 =>
      let buf1 := hex_decode s1 in
      let buf2 := hex_decode s2 in
      if negb (List.length buf1 =? List.length buf2)%nat then Ok Continue
      else
        let decrypted := decryptOTP buf1 buf2 in
        if startsWith IDENT_STR decrypted
        then Ok (Return (nth_error (split ":" decrypted) 1))
        else Ok Continue
  | _, _ => Throw "The first argument must be of type string"
  end.

(** [for (let i = 0; i < ris1.length; i++) { try {...} catch (e) { continue; } }]
    followed by the last [console.log]. *)
Fixpoint scan (passes i : nat) (ris1 ris2 : list string) : Outcome :=
  match passes with
  | O => Undetermined
  | S passes' =>
      match try_index ris1 ris2 i with
      | Ok (Return purchaser) => PurchaserCheated purchaser
      | Ok Continue => scan passes' (S i) ris1 ris2
      | Throw _ => scan passes' (S i) ris1 ris2
      end
  end.

(** [determineCheater(guid, ris1, ris2)]: its conclusion; the line it
    logs is [console_log guid] of it. *)
Definition determineCheater (guid : string) (ris1 ris2 : list string) : Outcome :=
  if JSON_stringify ris1 =? JSON_stringify ris2 then MerchantCheated
  else scan (List.length ris1) 0 ris1 ris2.

(* ---------------------------------------------------------------- *)
(** ** The invariant of a coin and its life cycle *)
(* ---------------------------------------------------------------- *)

(** The plaintext every pad of a coin encrypts. *)
Definition identity_plaintext (purchaser : value) : Buffer :=
  Buffer_from (IDENT_STR ++ ":" ++ to_string purchaser).

(** What the constructor establishes about the identity lists and the
    commitment string: [COIN_RIS_LENGTH] keys as long as the plaintext,
    each right value the plaintext under the key of the same index, and
    the hashes of both lists, in order, inside the commitment string. *)
Definition commits_to (purchaser : value) (c : Coin) : Prop :=
  List.length (leftIdent c) = COIN_RIS_LENGTH /\
  Forall (fun key => List.length key = List.length (identity_plaintext purchaser))
         (leftIdent c) /\
  rightIdent c = map (xor_buffers (identity_plaintext purchaser)) (leftIdent c) /\
  coinString c = make_coinString (amount c) (guid c)
                                 (map (hash P) (leftIdent c))
                                 (map (hash P) (rightIdent c)).

(** What may happen to a coin once it is built: the bank's signature is
    stored in it, and it is unblinded. *)
Inductive evolves (c0 : Coin) : Coin -> Prop :=
| evolves_built : evolves c0 c0
| evolves_signed (c : Coin) (s : value) :
    evolves c0 c -> evolves c0 (set_signature s c)
| evolves_unblinded (c c' : Coin) :
    evolves c0 c -> unblind c = Ok c' -> evolves c0 c'.

(** No field of the commitment string holds the character that joins
    the fields, and no hash holds the one that joins the hashes. *)
Definition delimiter_free (c : Coin) : bool :=
  negb (occurs "-" (to_string (amount c)))
  && negb (occurs "-" (guid c))
  && forallb (fun buf => negb (occurs "-" (hash P buf))
                         && negb (occurs "," (hash P buf)))
             (leftIdent c ++ rightIdent c).

(** The side a merchant picks at the draw made in world [w]. *)
Definition picks_left (w : World) : bool :=
  (random_nat P (calls w) mod 2 =? 0)%N.

(** The record of a successful [unblind()]: what a second call computes
    from it, past the guard on the signature. *)
Definition reapply_unblind (c : Coin) : result Coin :=
  match bs_unblind P (signature c) (n c) (blindingFactor c) with
  | Ok s =>
      if truthy s then Ok (set_signature s c)
      else Throw "Unblinding failed: Unblinding failed"
  | Throw msg => Throw ("Unblinding failed: " ++ msg)
  end.

End WithPlatform.

(** The report that discloses, at each index, the left value where
    [side] holds and the right value elsewhere. *)
Definition disclosure (c : Coin) (side : nat -> bool) : list string :=
  map (fun i => hex_encode (nth i (if side i then leftIdent c else rightIdent c) []))
      (seq 0 COIN_RIS_LENGTH).

(** The part of a string before its first [':'], all of it if it has
    none: the second piece of ["IDENT:" ++ s] split on [':']. *)
Definition up_to_colon (s : string) : option string := hd_error (split ":" s).

(** An argument the constructor treats as absent: missing, empty or zero. *)
Definition missing_empty_or_zero (v : value) : Prop :=
  v = VUndefined \/ v = VNull \/ v = VStr "" \/ v = VNum 0.

(* ================================================================== *)
(** * A small concrete platform *)
(* ================================================================== *)

(** Textbook RSA blind signatures on a small modulus, a checksum for the
    hash and fixed sequences for the random sources: enough to run the
    whole protocol inside the logic. *)
Module Toy.

(** The number a key component denotes: [N] and [E] travel as decimal
    strings, the library's results as big integers. *)
Definition Z_of_value (v : value) : Z :=
  match v with
  | VNum z | VBig z => z
  | VStr s => match NilZero.int_of_string s with
              | Some i => Z.of_int i
              | None => 0
              end
  | _ => 0
  end.

(** The message representative: a polynomial checksum of the bytes,
    reduced modulo the key. *)
Definition digest (modulus : Z) (message : string) : Z :=
  fold_left (fun acc c => (acc * 31 + Z.of_N (N_of_ascii c) + 1) mod modulus)%Z
            (list_ascii_of_string message) 7%Z.

(** [b ^ e mod modulus], squaring and reducing at every bit of [e]. *)
Fixpoint power_mod (b : Z) (e : positive) (modulus : Z) : Z :=
  match e with
  | xH => (b mod modulus)%Z
  | xO e' => let h := power_mod b e' modulus in ((h * h) mod modulus)%Z
  | xI e' => let h := power_mod b e' modulus in ((h * h * b) mod modulus)%Z
  end.

Definition pow_mod (b e modulus : Z) : Z :=
  match e with
  | Zpos p => power_mod b p modulus
  | _ => (1 mod modulus)%Z
  end.

(** The steps of the extended Euclidean algorithm on the remainders
    [r0], [r1] and the coefficients [s0], [s1] of the second argument. *)
Fixpoint euclid (fuel : nat) (r0 r1 s0 s1 : Z) : Z * Z :=
  match fuel with
  | O => (r0, s0)
  | S fuel' =>
      if (r1 =? 0)%Z then (r0, s0)
      else euclid fuel' r1 (r0 - (r0 / r1) * r1)%Z s1 (s0 - (r0 / r1) * s1)%Z
  end.

(** The inverse of [r] modulo [modulus], if there is one. *)
Definition inverse (modulus r : Z) : option Z :=
  match euclid (2 * Z.to_nat (Z.log2 modulus) + 2) modulus (r mod modulus) 0 1 with
  | (1%Z, s) => Some (s mod modulus)%Z
  | _ => None
  end.

Definition blind_factor (t : nat) : Z := Z.of_nat (2 + t mod 40).

Definition toy_blind (t : nat) (message : string) (N E : value)
  : result (value * value) :=
  let modulus := Z_of_value N in
  if (modulus <=? 1)%Z then Throw "invalid modulus"
  else
    let r := blind_factor t in
    Ok (VBig ((digest modulus message * pow_mod r (Z_of_value E) modulus) mod modulus)%Z,
        VBig r).

Definition toy_unblind (signed N r : value) : result value :=
  let modulus := Z_of_value N in
  match inverse modulus (Z_of_value r) with
  | Some r' => Ok (VBig ((Z_of_value signed * r') mod modulus)%Z)
  | None => Throw "blinding factor is not invertible"
  end.

Definition toy_verify (unblinded N E : value) (message : string) : bool :=
  let modulus := Z_of_value N in
  match unblinded with
  | VBig s => (pow_mod s (Z_of_value E) modulus =? digest modulus message mod modulus)%Z
  | _ => false
  end.

(** A 32-bit checksum, printed as eight hexadecimal digits. *)
Definition toy_hash (b : Buffer) : string :=
  let h := fold_left (fun acc c => (acc * 131 + N_of_ascii c + 1) mod 4294967291)%N b 7%N in
  hex_encode [ascii_of_N (h / 16777216); ascii_of_N ((h / 65536) mod 256);
              ascii_of_N ((h / 256) mod 256); ascii_of_N (h mod 256)].

Definition platform : Platform := {|
  random_guid := fun t => "9b1deb4d3b7d4bad9bdd2b0d7b3dcb6d";
  random_byte := fun t j => ascii_of_nat ((t * 37 + j * 11 + 5) mod 256);
  random_nat := fun t => N.of_nat (t * t / 7);
  hash := toy_hash;
  bs_blind := toy_blind;
  bs_unblind := toy_unblind;
  bs_verify := toy_verify
|}.

(** The bank's key pair: modulus 3233 = 61 * 53, public exponent 17,
    private exponent 2753. *)
Definition BANK_N : value := VStr "3233".
Definition BANK_E : value := VStr "17".
Definition BANK_D : Z := 2753.

(** [signCoin(blindedCoinHash)], the bank's signature on a blinded value. *)
Definition signCoin (blindedCoinHash : value) : value :=
  VBig (pow_mod (Z_of_value blindedCoinHash) BANK_D (Z_of_value BANK_N)).

(** A coin with nothing in it, for the branches that are never taken. *)
Definition blank : Coin :=
  mkCoin VUndefined VUndefined VUndefined "" [] [] ""
         VUndefined VUndefined VUndefined.

(** The first steps of the demo: [new Coin(purchaser, amount, N, E)] in
    the empty world, then [coin.signature = signCoin(coin.blinded)]. *)
Definition built (purchaser amount : value) : result Coin * World :=
  construct platform purchaser amount BANK_N BANK_E [].

Definition fresh_coin (purchaser amount : value) : Coin :=
  match fst (built purchaser amount) with
  | Ok coin => coin
  | Throw _ => blank
  end.

Definition signed_coin (purchaser amount : value) : Coin :=
  let coin := fresh_coin purchaser amount in
  set_signature (signCoin (blinded coin)) coin.

(** The coin after [coin.unblind()], ready to be spent. *)
Definition spendable_coin (purchaser amount : value) : Coin :=
  match unblind platform (signed_coin purchaser amount) with
  | Ok coin => coin
  | Throw _ => blank
  end.

(** Two merchants accept the same coin, one after the other. *)
Definition two_reports (coin : Coin) : result (list string * list string) :=
  match acceptCoin platform BANK_N BANK_E coin [] with
  | (Ok ris1, w1) =>
      match acceptCoin platform BANK_N BANK_E coin w1 with
      | (Ok ris2, _) => Ok (ris1, ris2)
      | (Throw msg, _) => Throw msg
      end
  | (Throw msg, _) => Throw msg
  end.

(** The same platform with a library whose unblind answers with
    [undefined]. *)
Definition mute_platform : Platform := {|
  random_guid := random_guid platform;
  random_byte := random_byte platform;
  random_nat := random_nat platform;
  hash := toy_hash;
  bs_blind := toy_blind;
  bs_unblind := fun _ _ _ => Ok VUndefined;
  bs_verify := toy_verify
|}.

(** The coin with the lowest bit of the first byte of [leftIdent[0]]
    flipped. *)
Definition flip_first_left (coin : Coin) : Coin :=
  match leftIdent coin with
  | (byte :: bytes) :: idents =>
      mkCoin (amount coin) (n coin) (e coin) (guid coin)
             ((xor_byte byte (ascii_of_N 1) :: bytes) :: idents)
             (rightIdent coin) (coinString coin)
             (blinded coin) (blindingFactor coin) (signature coin)
  | _ => coin
  end.

End Toy.

(* ================================================================== *)
(** * The constructor in closed form, the checks of a merchant, the demo *)
(* ================================================================== *)

(** How often the character occurs in the string. *)
Fixpoint count_char (c : ascii) (s : string) : nat :=
  match s with
  | EmptyString => O
  | String d s' => ((if (d =? c)%char then 1 else 0) + count_char c s')%nat
  end.

Section Derived.

Variable P : Platform.

(** The key that the call to [makeOTP] made [j] calls after call number
    [t] draws for a plaintext of [len] bytes. *)
Definition pad_key (t len j : nat) : Buffer :=
  map (random_byte P (t + j)) (seq 0 len).

(** The keys of [k] successive calls, the first one being call [t]. *)
Definition pad_keys (t len k : nat) : list Buffer :=
  map (pad_key t len) (seq 0 k).

(** The coin as the constructor has it when it reaches [this.blind()],
    started in world [w]: the guid of the first call, the keys of the
    next [COIN_RIS_LENGTH] calls, and nothing blinded or signed yet. *)
Definition coin_before_blinding (purchaser amount0 n0 e0 : value) (w : World)
  : Coin :=
  let plain := identity_plaintext purchaser in
  let keys := pad_keys (S (calls w)) (List.length plain) COIN_RIS_LENGTH in
  let ciphers := map (xor_buffers plain) keys in
  let guid0 := random_guid P (calls w) in
  mkCoin amount0 n0 e0 guid0 keys ciphers
         (make_coinString amount0 guid0 (map (hash P) keys) (map (hash P) ciphers))
         VUndefined VUndefined VUndefined.

(** The journal after the constructor went through [this.blind()]. *)
Definition journal_of_constructor (purchaser : value) (message : string)
           (w : World) : World :=
  (w ++ EvMakeGUID
     :: repeat (EvMakeOTP (IDENT_STR ++ ":" ++ to_string purchaser)) COIN_RIS_LENGTH
     ++ [EvBlind message])%list.

(** The side drawn at index [i] by an [acceptCoin] started in world [w]. *)
Definition side_at (w : World) (i : nat) : bool :=
  (random_nat P (calls w + i) mod 2 =? 0)%N.

(** The test of one pass of the loop of [acceptCoin]: the value on the
    side drawn is there and its hash is the parsed one. *)
Definition matches_commitment (coin : Coin) (leftHashes rightHashes : list string)
           (isLeft : bool) (i : nat) : bool :=
  match nth_error (if isLeft then leftIdent coin else rightIdent coin) i with
  | Some buf =>
      negb (differs (if isLeft then nth_error leftHashes i
                     else nth_error rightHashes i)
                    (hash P buf))
  | None => false
  end.

(** [unblind()] as a method: what the call throws or returns, and the
    coin as the call leaves it.  The assignment to [this.signature]
    comes before the test of its value, so the coin is changed even when
    that test throws. *)
Definition unblind_method (c : Coin) : result unit * Coin :=
  if negb (truthy (signature c))
  then (Throw "Unblinding failed: No signature to unblind", c)
  else
    match bs_unblind P (signature c) (n c) (blindingFactor c) with
    | Throw msg => (Throw ("Unblinding failed: " ++ msg), c)
    | Ok s =>
        if negb (truthy s)
        then (Throw "Unblinding failed: Unblinding failed", set_signature s c)
        else (Ok tt, set_signature s c)
    end.

(* ---------------------------------------------------------------- *)
(** ** [driver.js]: [signCoin] and the demo at the end of the file *)
(* ---------------------------------------------------------------- *)

Variable BANK_N BANK_E : value.

(** [blindSignatures.sign] under the bank's key [BANK_KEY]. *)
Variable bs_sign : value -> result value.

(** [signCoin(blindedCoinHash)] *)
Definition signCoin (blindedCoinHash : value) : result value :=
  bs_sign blindedCoinHash.

(** Lines 136 to 158: a coin for alice is built, signed and unblinded,
    two merchants accept it, and the bank reconciles first the two
    reports, then the first report with itself.  The result is what the
    script logs, line by line. *)
Definition demo : M (list string) :=
  coin <- construct P (VStr "alice") (VNum 20) BANK_N BANK_E ;;
  s <- lift (signCoin (blinded coin)) ;;
  coin <- lift (unblind P (set_signature s coin)) ;;
  ris1 <- acceptCoin P BANK_N BANK_E coin ;;
  ris2 <- acceptCoin P BANK_N BANK_E coin ;;
  ret [console_log (guid coin) (determineCheater (guid coin) ris1 ris2);
       "";
       console_log (guid coin) (determineCheater (guid coin) ris1 ris1)].

End Derived.
(* ================================================================== *)
(** * Bytes, hexadecimal and XOR *)
(* ================================================================== *)

Lemma xor_byte_cancel (p k : ascii) : xor_byte k (xor_byte p k) = p.
Proof.
  destruct p as [p0 p1 p2 p3 p4 p5 p6 p7], k as [k0 k1 k2 k3 k4 k5 k6 k7].
  simpl. f_equal; rewrite xorb_comm, xorb_assoc, xorb_nilpotent; apply xorb_false_r.
Qed.

Lemma xor_byte_comm (a b : ascii) : xor_byte a b = xor_byte b a.
Proof.
  destruct a, b. simpl. f_equal; apply xorb_comm.
Qed.

Lemma xor_byte_self (a : ascii) : xor_byte a a = zero.
Proof.
  destruct a. unfold zero. simpl. f_equal; apply xorb_nilpotent.
Qed.

Lemma xor_byte_zero_eq (a b : ascii) : xor_byte a b = zero -> a = b.
Proof.
  destruct a, b. unfold zero. simpl. intros H. injection H as H0 H1 H2 H3 H4 H5 H6 H7.
  f_equal; apply xorb_eq; assumption.
Qed.

Lemma xor_buffers_comm (a b : Buffer) : xor_buffers a b = xor_buffers b a.
Proof.
  revert b. induction a as [|x a IH]; intros [|y b]; simpl; try reflexivity.
  now rewrite xor_byte_comm, IH.
Qed.

Lemma xor_buffers_length (a b : Buffer) :
  List.length a = List.length b -> List.length (xor_buffers a b) = List.length a.
Proof.
  revert b. induction a as [|x a IH]; intros [|y b]; simpl; try discriminate; auto.
Qed.

(** The one-time pad: the key undoes what the key did. *)
Lemma xor_buffers_cancel (plain key : Buffer) :
  List.length key = List.length plain ->
  xor_buffers key (xor_buffers plain key) = plain.
Proof.
  revert key. induction plain as [|p plain IH]; intros [|k key]; simpl;
    try discriminate; auto.
  intros H. now rewrite xor_byte_cancel, IH by congruence.
Qed.

Lemma xor_buffers_self (a : Buffer) :
  xor_buffers a a = repeat zero (List.length a).
Proof.
  induction a as [|x a IH]; simpl; [reflexivity|]. now rewrite xor_byte_self, IH.
Qed.

Lemma hex_pair_roundtrip (c : ascii) :
  hex_value (hex_digit (N_of_ascii c / 16)) = Some (N_of_ascii c / 16)%N /\
  hex_value (hex_digit (N_of_ascii c mod 16)) = Some (N_of_ascii c mod 16)%N /\
  ascii_of_N (16 * (N_of_ascii c / 16) + N_of_ascii c mod 16) = c.
Proof.
  destruct c as [[] [] [] [] [] [] [] []]; vm_compute; auto.
Qed.

(** Decoding the hexadecimal form of a buffer gives the buffer back. *)
Lemma hex_decode_encode (b : Buffer) : hex_decode (hex_encode b) = b.
Proof.
  induction b as [|c b IH]; [reflexivity|].
  destruct (hex_pair_roundtrip c) as (Hh & Hl & Hc).
  cbn [hex_encode hex_decode]. rewrite Hh, Hl, Hc, IH. reflexivity.
Qed.

Lemma hex_encode_inj (a b : Buffer) : hex_encode a = hex_encode b -> a = b.
Proof.
  intros H. rewrite <- (hex_decode_encode a), H. apply hex_decode_encode.
Qed.

(* ================================================================== *)
(** * [split] and [join] *)
(* ================================================================== *)

Lemma split_no_sep (sep : ascii) (s : string) :
  occurs sep s = false -> split sep s = [s].
Proof.
  induction s as [|c s IH]; simpl; [reflexivity|].
  intros H. apply orb_false_iff in H. destruct H as [Hc Hs].
  rewrite Hc, (IH Hs). reflexivity.
Qed.

(** Splitting peels off a first field that is free of the separator. *)
Lemma split_app (sep : ascii) (a b : string) :
  occurs sep a = false ->
  split sep (a ++ String sep b) = a :: split sep b.
Proof.
  induction a as [|c a IH]; simpl.
  - intros _. now rewrite Ascii.eqb_refl.
  - intros H. apply orb_false_iff in H. destruct H as [Hc Ha].
    rewrite Hc, (IH Ha). reflexivity.
Qed.

(** Splitting a join gives the list back, when no element holds the
    separator. *)
Lemma split_join (sep : ascii) (l : list string) :
  l <> [] ->
  forallb (fun x => negb (occurs sep x)) l = true ->
  split sep (join (String sep "") l) = l.
Proof.
  induction l as [|x l IH]; [congruence|].
  intros _ H. simpl in H. apply andb_true_iff in H. destruct H as [Hx Hl].
  apply negb_true_iff in Hx.
  destruct l as [|y l].
  - simpl. now apply split_no_sep.
  - change (join (String sep "") (x :: y :: l))
      with (x ++ String sep (join (String sep "") (y :: l))).
    rewrite split_app by assumption. f_equal. apply IH; [discriminate | assumption].
Qed.

Lemma occurs_app (c : ascii) (a b : string) :
  occurs c (a ++ b) = occurs c a || occurs c b.
Proof.
  induction a as [|d a IH]; simpl; [reflexivity|]. now rewrite IH, orb_assoc.
Qed.

Lemma append_assoc (a b c : string) : (a ++ b) ++ c = a ++ (b ++ c).
Proof.
  induction a as [|x a IH]; simpl; [reflexivity|]. now rewrite IH.
Qed.

Lemma append_empty_r (a : string) : a ++ "" = a.
Proof.
  induction a as [|x a IH]; simpl; [reflexivity|]. now rewrite IH.
Qed.

(* ================================================================== *)
(** * [JSON.stringify] tells different reports apart *)
(* ================================================================== *)

Lemma json_unescape_escape (c : ascii) (r : string) :
  json_unescape (json_escape c ++ r) = Some (c, r).
Proof.
  destruct c as [[] [] [] [] [] [] [] []]; reflexivity.
Qed.

Lemma json_escape_string_inj (s1 s2 r1 r2 : string) :
  json_escape_string s1 ++ String dquote r1
  = json_escape_string s2 ++ String dquote r2 ->
  s1 = s2 /\ r1 = r2.
Proof.
  revert s2. induction s1 as [|c1 s1 IH]; intros [|c2 s2] H.
  - simpl in H. injection H as ->. auto.
  - apply (f_equal json_unescape) in H. cbn [json_escape_string] in H.
    rewrite append_assoc, json_unescape_escape in H. discriminate.
  - apply (f_equal json_unescape) in H. cbn [json_escape_string] in H.
    rewrite append_assoc, json_unescape_escape in H. discriminate.
  - apply (f_equal json_unescape) in H. cbn [json_escape_string] in H.
    rewrite !append_assoc, !json_unescape_escape in H.
    injection H as -> H. destruct (IH _ H) as [-> ->]. auto.
Qed.

Lemma json_quote_inj (s1 s2 r1 r2 : string) :
  json_quote s1 ++ r1 = json_quote s2 ++ r2 -> s1 = s2 /\ r1 = r2.
Proof.
  unfold json_quote. simpl. rewrite !append_assoc. simpl.
  intros H. injection H as H. now apply json_escape_string_inj.
Qed.

Lemma json_elements_cons (x : string) (l : list string) :
  json_elements (x :: l)
  = json_quote x ++ match l with [] => "" | _ => "," ++ json_elements l end.
Proof.
  destruct l; [|reflexivity].
  cbn [json_elements]. now rewrite append_empty_r.
Qed.

Lemma json_elements_inj (l1 l2 : list string) :
  json_elements l1 ++ "]" = json_elements l2 ++ "]" -> l1 = l2.
Proof.
  revert l2. induction l1 as [|x l1 IH]; intros [|y l2] H.
  - reflexivity.
  - rewrite json_elements_cons in H. discriminate.
  - rewrite json_elements_cons in H. discriminate.
  - rewrite !json_elements_cons, !append_assoc in H.
    apply json_quote_inj in H. destruct H as [-> H]. f_equal.
    destruct l1 as [|x1 l1], l2 as [|y1 l2]; try reflexivity.
    + rewrite json_elements_cons in H. discriminate.
    + rewrite json_elements_cons in H. discriminate.
    + apply IH. simpl append in H. injection H as H. exact H.
Qed.

(** Two arrays of strings have the same JSON text only if they are the
    same array. *)
Lemma JSON_stringify_inj (l1 l2 : list string) :
  JSON_stringify l1 = JSON_stringify l2 -> l1 = l2.
Proof.
  unfold JSON_stringify. simpl. intros H. injection H as H.
  now apply json_elements_inj.
Qed.

Lemma JSON_stringify_eqb (l1 l2 : list string) :
  (JSON_stringify l1 =? JSON_stringify l2) = true <-> l1 = l2.
Proof.
  rewrite String.eqb_eq. split; [apply JSON_stringify_inj | now intros ->].
Qed.

(* ================================================================== *)
(** * The life of a coin *)
(* ================================================================== *)

Section CoinFacts.

Variable P : Platform.

Lemma commit_loop_run (passes : nat) (purchaser : value) (cm : Commitments)
      (w : World) :
  exists keys : list Buffer,
    List.length keys = passes /\
    Forall (fun key => List.length key = List.length (identity_plaintext purchaser))
           keys /\
    exists w',
    commit_loop P passes purchaser cm w
    = (Ok (mkCommitments
             (cm_leftIdent cm ++ keys)
             (cm_leftHashes cm ++ map (hash P) keys)
             (cm_rightIdent cm ++ map (xor_buffers (identity_plaintext purchaser)) keys)
             (cm_rightHashes cm
                ++ map (hash P) (map (xor_buffers (identity_plaintext purchaser)) keys))),
       w').
Proof.
  revert cm w. induction passes as [|passes IH]; intros cm w.
  - exists []. repeat split; [constructor|]. exists w. simpl.
    rewrite !app_nil_r. destruct cm; reflexivity.
  - cbn [commit_loop]. unfold bind at 1. unfold commit_step, bind, makeOTP, ret.
    set (key := map (random_byte P (calls w))
                    (seq 0 (List.length (Buffer_from (IDENT_STR ++ ":" ++ to_string purchaser))))).
    match goal with
    | |- context [commit_loop P passes purchaser ?cm' ?w'] =>
        destruct (IH cm' w') as (keys & Hlen & Hall & w'' & Hrun)
    end.
    exists (key :: keys). repeat split.
    + simpl. now rewrite Hlen.
    + constructor; [|assumption].
      unfold key, identity_plaintext. now rewrite length_map, length_seq.
    + exists w''. rewrite Hrun. cbn [cm_leftIdent cm_leftHashes cm_rightIdent cm_rightHashes].
      rewrite <- !app_assoc. reflexivity.
Qed.

Lemma blind_ok (c c' : Coin) (w w' : World) :
  blind P c w = (Ok c', w') ->
  exists b r, c' = set_blinding b r c /\ truthy b = true /\ truthy r = true.
Proof.
  unfold blind, try_catch, throw.
  destruct (bs_blind P (calls w) (toString c) (n c) (e c)) as [[b r]|msg];
    [|discriminate].
  destruct (truthy b) eqn:Hb, (truthy r) eqn:Hr; simpl; try discriminate.
  intros H. injection H as <- _. now exists b, r.
Qed.

Lemma unblind_ok (c c' : Coin) :
  unblind P c = Ok c' ->
  truthy (signature c) = true /\
  exists s, bs_unblind P (signature c) (n c) (blindingFactor c) = Ok s /\
            truthy s = true /\ c' = set_signature s c.
Proof.
  unfold unblind. destruct (truthy (signature c)); simpl; [|discriminate].
  destruct (bs_unblind P (signature c) (n c) (blindingFactor c)) as [s|msg];
    [|discriminate].
  destruct (truthy s) eqn:Hs; simpl; [|discriminate].
  intros H. injection H as <-. split; [reflexivity|]. now exists s.
Qed.

(** A successful construction: the arguments were all truthy and the
    coin commits to the purchaser. *)
Lemma construct_ok (purchaser amount0 n0 e0 : value) (w w' : World) (c : Coin) :
  construct P purchaser amount0 n0 e0 w = (Ok c, w') ->
  commits_to P purchaser c /\
  amount c = amount0 /\ n c = n0 /\ e c = e0 /\
  guid c = random_guid P (calls w) /\
  signature c = VUndefined /\
  truthy (blinded c) = true /\ truthy (blindingFactor c) = true.
Proof.
  unfold construct.
  destruct (negb (truthy purchaser) || negb (truthy amount0)
            || negb (truthy n0) || negb (truthy e0)); [discriminate|].
  unfold bind at 1. unfold makeGUID. unfold try_catch, bind.
  destruct (commit_loop_run COIN_RIS_LENGTH purchaser (mkCommitments [] [] [] [])
                            (journal EvMakeGUID w))
    as (keys & Hlen & Hall & w1 & Hrun).
  rewrite Hrun. cbn [cm_leftIdent cm_leftHashes cm_rightIdent cm_rightHashes app].
  match goal with
  | |- context [blind P ?c0 w1] => destruct (blind P c0 w1) as [[c1|msg] w2] eqn:Hb
  end; [|discriminate].
  intros H. injection H as <- _.
  apply blind_ok in Hb. destruct Hb as (b & r & -> & Hb & Hr).
  unfold commits_to. cbn. auto 10.
Qed.

Lemma evolves_commits (purchaser : value) (c0 c : Coin) :
  commits_to P purchaser c0 -> evolves P c0 c -> commits_to P purchaser c.
Proof.
  intros H0 Hev. induction Hev as [|c s _ IH|c c' _ IH Hu]; [assumption | exact IH |].
  apply unblind_ok in Hu. destruct Hu as (_ & s & _ & _ & ->). exact IH.
Qed.

End CoinFacts.

(* ================================================================== *)
(** * Construction *)
(* ================================================================== *)

Lemma missing_empty_or_zero_falsy (v : value) :
  missing_empty_or_zero v -> truthy v = false.
Proof.
  intros [-> | [-> | [-> | ->]]]; reflexivity.
Qed.

(** C9.  [new Coin(purchaser, amount, n, e)] throws "Missing required
    coin parameters" as soon as one of its four arguments is missing,
    empty or zero, and it does so before anything else happens: the
    journal of external calls is unchanged, so no GUID was drawn, no pad
    was made and nothing was blinded. *)
Theorem construct_rejects_missing_parameters
        (P : Platform) (purchaser amount n e : value) (w : World) :
  missing_empty_or_zero purchaser \/ missing_empty_or_zero amount \/
  missing_empty_or_zero n \/ missing_empty_or_zero e ->
  construct P purchaser amount n e w
  = (Throw "Missing required coin parameters", w).
Proof.
  intros H. unfold construct.
  assert (Hf : negb (truthy purchaser) || negb (truthy amount)
               || negb (truthy n) || negb (truthy e) = true).
  { destruct H as [H | [H | [H | H]]];
      apply missing_empty_or_zero_falsy in H; rewrite H; simpl;
      rewrite ?orb_true_r; reflexivity. }
  rewrite Hf. reflexivity.
Qed.

Lemma construct_rejects_missing_parameters_witness :
  construct Toy.platform (VStr "alice") (VNum 0) Toy.BANK_N Toy.BANK_E []
  = (Throw "Missing required coin parameters", []).
Proof.
  apply construct_rejects_missing_parameters.
  right; left. right; right; right. reflexivity.
Defined.

(* ================================================================== *)
(** * Reading the identity lists *)
(* ================================================================== *)

Lemma getRis_in_range (c : Coin) (isLeft : bool) (i : Z) :
  (0 <= i < Z.of_nat COIN_RIS_LENGTH)%Z ->
  getRis c isLeft i
  = Ok (nth_error (if isLeft then leftIdent c else rightIdent c) (Z.to_nat i)).
Proof.
  intros Hi. unfold getRis.
  destruct (Z.ltb_spec i 0); [lia|].
  destruct (Z.geb_spec i (Z.of_nat COIN_RIS_LENGTH)); [lia|].
  destruct isLeft; reflexivity.
Qed.

Lemma getRis_out_of_range (c : Coin) (isLeft : bool) (i : Z) :
  ~ (0 <= i < Z.of_nat COIN_RIS_LENGTH)%Z ->
  getRis c isLeft i = Throw ("RIS index out of bounds: " ++ string_of_Z i).
Proof.
  intros Hi. unfold getRis.
  destruct (Z.ltb_spec i 0); [reflexivity|].
  destruct (Z.geb_spec i (Z.of_nat COIN_RIS_LENGTH)); [reflexivity|lia].
Qed.

Lemma commits_lengths (P : Platform) (purchaser : value) (c : Coin) :
  commits_to P purchaser c ->
  List.length (leftIdent c) = COIN_RIS_LENGTH /\
  List.length (rightIdent c) = COIN_RIS_LENGTH.
Proof.
  intros (Hlen & _ & Hr & _). split; [assumption|].
  now rewrite Hr, length_map.
Qed.

Lemma nth_error_defined {A} (l : list A) (i : nat) :
  (i < List.length l)%nat -> exists x, nth_error l i = Some x.
Proof.
  intros H. destruct (nth_error l i) eqn:E; [eauto|].
  apply nth_error_None in E. lia.
Qed.

(** C8.  On a constructed coin, at any later point of its life,
    [getRis(isLeft, i)] returns [leftIdent[i]] when [isLeft] holds and
    [rightIdent[i]] otherwise, a value that is there, for every integer
    [i] in [[0, K)]; it throws "RIS index out of bounds" exactly when [i]
    is outside that range, in particular at [-1] and at [K]. *)
Theorem getRis_constructed
        (P : Platform) (purchaser amount n e : value) (w w' : World)
        (c0 c : Coin) :
  construct P purchaser amount n e w = (Ok c0, w') ->
  evolves P c0 c ->
  forall (isLeft : bool) (i : Z),
    ((0 <= i < Z.of_nat COIN_RIS_LENGTH)%Z ->
     exists buf,
       nth_error (if isLeft then leftIdent c else rightIdent c) (Z.to_nat i)
       = Some buf /\
       getRis c isLeft i = Ok (Some buf)) /\
    (~ (0 <= i < Z.of_nat COIN_RIS_LENGTH)%Z ->
     getRis c isLeft i = Throw ("RIS index out of bounds: " ++ string_of_Z i)) /\
    ((exists msg, getRis c isLeft i = Throw msg)
     <-> ~ (0 <= i < Z.of_nat COIN_RIS_LENGTH)%Z) /\
    getRis c isLeft (-1) = Throw "RIS index out of bounds: -1" /\
    getRis c isLeft (Z.of_nat COIN_RIS_LENGTH) = Throw "RIS index out of bounds: 20".
Proof.
  intros Hc Hev isLeft i.
  apply construct_ok in Hc. destruct Hc as (Hcm & _).
  pose proof (evolves_commits Hcm Hev) as Hcm'.
  destruct (commits_lengths Hcm') as [Hl Hr].
  assert (Hin : (0 <= i < Z.of_nat COIN_RIS_LENGTH)%Z ->
                exists buf,
                  nth_error (if isLeft then leftIdent c else rightIdent c) (Z.to_nat i)
                  = Some buf /\ getRis c isLeft i = Ok (Some buf)).
  { intros Hi. rewrite (getRis_in_range c isLeft Hi).
    destruct (@nth_error_defined _ (if isLeft then leftIdent c else rightIdent c)
                                 (Z.to_nat i)) as [buf Hb].
    { destruct isLeft; [rewrite Hl | rewrite Hr]; lia. }
    exists buf. now rewrite Hb. }
  split; [exact Hin|]. split; [apply getRis_out_of_range|].
  split; [|split; reflexivity].
  split.
  - intros [msg Hm] Hi. destruct (Hin Hi) as (buf & _ & Hb). congruence.
  - intros Hi. eexists. now apply getRis_out_of_range.
Qed.

Lemma getRis_constructed_witness :
  exists buf,
    nth_error (leftIdent (Toy.spendable_coin (VStr "alice") (VNum 20))) 3 = Some buf /\
    getRis (Toy.spendable_coin (VStr "alice") (VNum 20)) true 3 = Ok (Some buf).
Proof.
  refine (proj1 (@getRis_constructed
                   Toy.platform (VStr "alice") (VNum 20) Toy.BANK_N Toy.BANK_E []
                   (snd (Toy.built (VStr "alice") (VNum 20)))
                   (Toy.fresh_coin (VStr "alice") (VNum 20))
                   (Toy.spendable_coin (VStr "alice") (VNum 20))
                   _ _ true 3%Z) _).
  - vm_compute. reflexivity.
  - apply evolves_unblinded with (c := Toy.signed_coin (VStr "alice") (VNum 20)).
    + apply evolves_signed, evolves_built.
    + vm_compute. reflexivity.
  - unfold COIN_RIS_LENGTH. lia.
Defined.

(* ================================================================== *)
(** * What the life of a coin leaves alone *)
(* ================================================================== *)

Lemma evolves_frame (P : Platform) (c0 c : Coin) :
  evolves P c0 c ->
  amount c = amount c0 /\ n c = n c0 /\ e c = e c0 /\ guid c = guid c0 /\
  leftIdent c = leftIdent c0 /\ rightIdent c = rightIdent c0 /\
  coinString c = coinString c0 /\
  blinded c = blinded c0 /\ blindingFactor c = blindingFactor c0.
Proof.
  intros Hev. induction Hev as [|c s _ IH|c c' _ IH Hu].
  - repeat split.
  - exact IH.
  - apply unblind_ok in Hu. destruct Hu as (_ & s & _ & _ & ->). exact IH.
Qed.

(* ================================================================== *)
(** * Unblinding *)
(* ================================================================== *)

(** Past its guard, [unblind()] is the transformation alone. *)
Lemma unblind_with_signature (P : Platform) (c : Coin) :
  truthy (signature c) = true -> unblind P c = reapply_unblind P c.
Proof.
  intros H. unfold unblind, reapply_unblind. rewrite H. simpl.
  destruct (bs_unblind P (signature c) (n c) (blindingFactor c)) as [s|msg];
    [|reflexivity].
  destruct (truthy s); reflexivity.
Qed.

(** C5, which the code does not bear out: in the demo run, after
    [unblind()] has succeeded, the coin still holds the blinding factor
    and the blinded value that [blind()] stored. *)
Lemma unblind_leaves_blinding_state :
  unblind Toy.platform (Toy.signed_coin (VStr "alice") (VNum 20))
  = Ok (Toy.spendable_coin (VStr "alice") (VNum 20)) /\
  blindingFactor (Toy.signed_coin (VStr "alice") (VNum 20)) = VBig 23 /\
  blindingFactor (Toy.spendable_coin (VStr "alice") (VNum 20)) = VBig 23 /\
  blinded (Toy.spendable_coin (VStr "alice") (VNum 20)) = VBig 2507.
Proof.
  vm_compute. repeat split.
Qed.

(** C5, amended.  A successful [unblind()] changes the signature field
    and nothing else: the result of the library's unblind, which is not
    empty, replaces the signature, while [blinded] and [blindingFactor]
    keep the values they had, as does every other field. *)
Theorem unblind_changes_only_signature (P : Platform) (c c' : Coin) :
  unblind P c = Ok c' ->
  blinded c' = blinded c /\
  blindingFactor c' = blindingFactor c /\
  bs_unblind P (signature c) (n c) (blindingFactor c) = Ok (signature c') /\
  truthy (signature c') = true /\
  c' = set_signature (signature c') c.
Proof.
  intros H. apply unblind_ok in H. destruct H as (_ & s & Hs & Ht & ->).
  cbn. auto.
Qed.

Lemma unblind_changes_only_signature_witness :
  blinded (Toy.spendable_coin (VStr "alice") (VNum 20))
  = blinded (Toy.signed_coin (VStr "alice") (VNum 20)) /\
  blindingFactor (Toy.spendable_coin (VStr "alice") (VNum 20))
  = blindingFactor (Toy.signed_coin (VStr "alice") (VNum 20)).
Proof.
  destruct (@unblind_changes_only_signature
              Toy.platform
              (Toy.signed_coin (VStr "alice") (VNum 20))
              (Toy.spendable_coin (VStr "alice") (VNum 20)))
    as (Hb & Hr & _).
  - vm_compute. reflexivity.
  - split; [exact Hb | exact Hr].
Defined.

(** C10.  After a successful [unblind()] the signature field is not
    empty, so a second call passes the guard and applies the library's
    unblind again, to the signature that is already final, with the same
    modulus and blinding factor; the error of the guard can then only
    show if the library itself throws that text. *)
Theorem second_unblind_reapplies (P : Platform) (c c' : Coin) :
  unblind P c = Ok c' ->
  truthy (signature c') = true /\
  n c' = n c /\ blindingFactor c' = blindingFactor c /\
  unblind P c' = reapply_unblind P c' /\
  (unblind P c' = Throw "Unblinding failed: No signature to unblind" ->
   bs_unblind P (signature c') (n c) (blindingFactor c)
   = Throw "No signature to unblind").
Proof.
  intros H. apply unblind_ok in H. destruct H as (_ & s & _ & Ht & ->).
  cbn [set_signature signature n blindingFactor].
  split; [exact Ht|]. split; [reflexivity|]. split; [reflexivity|].
  assert (Hre : unblind P (set_signature s c) = reapply_unblind P (set_signature s c))
    by now apply unblind_with_signature.
  split; [exact Hre|].
  rewrite Hre. unfold reapply_unblind. cbn [set_signature signature n blindingFactor].
  destruct (bs_unblind P s (n c) (blindingFactor c)) as [s'|msg].
  - destruct (truthy s'); discriminate.
  - simpl. intros Hm. injection Hm as ->. reflexivity.
Qed.

Lemma second_unblind_reapplies_witness :
  unblind Toy.platform (Toy.spendable_coin (VStr "alice") (VNum 20))
  = reapply_unblind Toy.platform (Toy.spendable_coin (VStr "alice") (VNum 20)).
Proof.
  refine (proj1 (proj2 (proj2 (proj2
            (@second_unblind_reapplies
               Toy.platform
               (Toy.signed_coin (VStr "alice") (VNum 20))
               (Toy.spendable_coin (VStr "alice") (VNum 20)) _))))).
  vm_compute. reflexivity.
Defined.

(** In the demo run the second [unblind()] succeeds and replaces the
    valid signature 585 by 166, which the bank's key no longer
    verifies: unblinding is not idempotent. *)
Example second_unblind_spoils_signature :
  signature (Toy.spendable_coin (VStr "alice") (VNum 20)) = VBig 585 /\
  Toy.toy_verify (VBig 585) Toy.BANK_N Toy.BANK_E
                 (toString (Toy.spendable_coin (VStr "alice") (VNum 20))) = true /\
  unblind Toy.platform (Toy.spendable_coin (VStr "alice") (VNum 20))
  = Ok (set_signature (VBig 166) (Toy.spendable_coin (VStr "alice") (VNum 20))) /\
  Toy.toy_verify (VBig 166) Toy.BANK_N Toy.BANK_E
                 (toString (Toy.spendable_coin (VStr "alice") (VNum 20))) = false.
Proof.
  vm_compute. repeat split.
Qed.

(* ================================================================== *)
(** * Reconciliation: identical reports *)
(* ================================================================== *)

(** C2.  Whatever the guid, two reports of the same length that agree at
    every index make [determineCheater] conclude that the merchant
    cheats; in particular a report reconciled with itself does. *)
Theorem identical_reports_merchant_cheated
        (guid : string) (ris1 ris2 : list string) :
  List.length ris1 = List.length ris2 ->
  (forall i : nat, nth_error ris1 i = nth_error ris2 i) ->
  determineCheater guid ris1 ris2 = MerchantCheated /\
  determineCheater guid ris1 ris1 = MerchantCheated.
Proof.
  intros _ H. apply nth_error_ext in H. subst ris2.
  unfold determineCheater. now rewrite String.eqb_refl.
Qed.

Lemma identical_reports_merchant_cheated_witness :
  determineCheater "9b1deb4d" ["2a35404b"; "061e203e"] ["2a35404b"; "061e203e"]
  = MerchantCheated.
Proof.
  refine (proj1 (@identical_reports_merchant_cheated
                   "9b1deb4d" ["2a35404b"; "061e203e"] ["2a35404b"; "061e203e"] _ _)).
  - reflexivity.
  - intros i. reflexivity.
Defined.

(* ================================================================== *)
(** * The commitment string and its fields *)
(* ================================================================== *)

Lemma occurs_join (c sep : ascii) (l : list string) :
  (sep =? c)%char = false ->
  forallb (fun x => negb (occurs c x)) l = true ->
  occurs c (join (String sep "") l) = false.
Proof.
  intros Hsep. induction l as [|x l IH]; [reflexivity|].
  intros H. simpl in H. apply andb_true_iff in H. destruct H as [Hx Hl].
  apply negb_true_iff in Hx.
  destruct l as [|y l]; [exact Hx|].
  change (join (String sep "") (x :: y :: l))
    with (x ++ String sep (join (String sep "") (y :: l))).
  rewrite occurs_app. cbn [occurs]. rewrite Hx, Hsep, (IH Hl). reflexivity.
Qed.

Lemma forallb_map_hash (P : Platform) (c : ascii) (l : list Buffer) :
  forallb (fun buf => negb (occurs c (hash P buf))) l
  = forallb (fun x => negb (occurs c x)) (map (hash P) l).
Proof.
  induction l as [|x l IH]; simpl; [reflexivity|]. now rewrite IH.
Qed.

Lemma delimiter_free_hashes (P : Platform) (c : Coin) :
  delimiter_free P c = true ->
  occurs "-" (to_string (amount c)) = false /\
  occurs "-" (guid c) = false /\
  (forall l, l = leftIdent c \/ l = rightIdent c ->
             forallb (fun x => negb (occurs "-" x)) (map (hash P) l) = true /\
             forallb (fun x => negb (occurs "," x)) (map (hash P) l) = true).
Proof.
  unfold delimiter_free. intros H.
  apply andb_true_iff in H. destruct H as [H Hh].
  apply andb_true_iff in H. destruct H as [Ha Hg].
  apply negb_true_iff in Ha, Hg. split; [exact Ha|]. split; [exact Hg|].
  rewrite forallb_app in Hh. apply andb_true_iff in Hh. destruct Hh as [Hl Hr].
  assert (Hsplit : forall l,
             forallb (fun buf => negb (occurs "-" (hash P buf))
                                 && negb (occurs "," (hash P buf))) l = true ->
             forallb (fun x => negb (occurs "-" x)) (map (hash P) l) = true /\
             forallb (fun x => negb (occurs "," x)) (map (hash P) l) = true).
  { induction l as [|x l IH]; simpl; [auto|].
    intros Hx. apply andb_true_iff in Hx. destruct Hx as [Hx Hl'].
    apply andb_true_iff in Hx. destruct Hx as [Hx1 Hx2].
    destruct (IH Hl') as [I1 I2]. now rewrite Hx1, Hx2, I1, I2. }
  intros l [-> | ->]; apply Hsplit; assumption.
Qed.

(** Splitting a commitment string whose fields are free of the
    delimiters gives the five fields, and [parseCoin] the two lists. *)
Lemma parse_make_coinString (amount0 : value) (guid0 : string)
      (leftHashes rightHashes : list string) :
  occurs "-" (to_string amount0) = false ->
  occurs "-" guid0 = false ->
  leftHashes <> [] -> rightHashes <> [] ->
  forallb (fun x => negb (occurs "-" x)) leftHashes = true ->
  forallb (fun x => negb (occurs "," x)) leftHashes = true ->
  forallb (fun x => negb (occurs "-" x)) rightHashes = true ->
  forallb (fun x => negb (occurs "," x)) rightHashes = true ->
  split "-" (make_coinString amount0 guid0 leftHashes rightHashes)
  = [BANK_STR; to_string amount0; guid0;
     join "," leftHashes; join "," rightHashes] /\
  parseCoin (make_coinString amount0 guid0 leftHashes rightHashes)
  = Ok (leftHashes, rightHashes).
Proof.
  intros Ha Hg Hl0 Hr0 Hl1 Hl2 Hr1 Hr2.
  assert (Hs : split "-" (make_coinString amount0 guid0 leftHashes rightHashes)
               = [BANK_STR; to_string amount0; guid0;
                  join "," leftHashes; join "," rightHashes]).
  { unfold make_coinString.
    change (BANK_STR ++ "-" ++ to_string amount0 ++ "-" ++ guid0 ++ "-"
                     ++ join "," leftHashes ++ "-" ++ join "," rightHashes)
      with (BANK_STR ++ String "-" (to_string amount0 ++ String "-"
              (guid0 ++ String "-" (join "," leftHashes
                 ++ String "-" (join "," rightHashes))))).
    rewrite split_app by reflexivity.
    rewrite split_app by assumption.
    rewrite split_app by assumption.
    rewrite split_app by (apply occurs_join; [reflexivity | assumption]).
    rewrite split_no_sep by (apply occurs_join; [reflexivity | assumption]).
    reflexivity. }
  split; [exact Hs|].
  unfold parseCoin. rewrite Hs. cbn [nth_error differs].
  rewrite String.eqb_refl. cbn [negb].
  now rewrite !split_join.
Qed.

(** The fields of a constructed coin come back from its commitment
    string when they are free of the delimiters. *)
Lemma constructed_coin_parses
        (P : Platform) (purchaser amount0 n0 e0 : value) (w w' : World)
        (c0 c : Coin) :
  construct P purchaser amount0 n0 e0 w = (Ok c0, w') ->
  evolves P c0 c ->
  delimiter_free P c = true ->
  split "-" (toString c)
  = [BANK_STR; to_string (amount c); guid c;
     join "," (map (hash P) (leftIdent c));
     join "," (map (hash P) (rightIdent c))] /\
  parseCoin (toString c)
  = Ok (map (hash P) (leftIdent c), map (hash P) (rightIdent c)).
Proof.
  intros Hc Hev Hfree.
  apply construct_ok in Hc. destruct Hc as (Hcm & _).
  pose proof (evolves_commits Hcm Hev) as Hcm'.
  destruct (commits_lengths Hcm') as [Hl Hr].
  destruct Hcm' as (_ & _ & _ & Hs).
  destruct (delimiter_free_hashes P c Hfree) as (Ha & Hg & Hh).
  destruct (Hh _ (or_introl eq_refl)) as [Hl1 Hl2].
  destruct (Hh _ (or_intror eq_refl)) as [Hr1 Hr2].
  unfold toString. rewrite Hs.
  apply parse_make_coinString; try assumption.
  - intros E. apply (f_equal (@List.length _)) in E.
    rewrite length_map, Hl in E. discriminate.
  - intros E. apply (f_equal (@List.length _)) in E.
    rewrite length_map, Hr in E. discriminate.
Qed.

(** C3, which the code does not bear out: with the amount -20, which the
    constructor accepts, the amount field holds the delimiter, the split
    of the commitment string has an empty second piece, and [parseCoin]
    takes the guid for the left hashes and the left hashes for the right
    ones. *)
Lemma negative_amount_splits_wrongly :
  fst (Toy.built (VStr "alice") (VNum (-20)))
  = Ok (Toy.fresh_coin (VStr "alice") (VNum (-20))) /\
  to_string (amount (Toy.fresh_coin (VStr "alice") (VNum (-20)))) = "-20" /\
  firstn 4 (split "-" (toString (Toy.fresh_coin (VStr "alice") (VNum (-20)))))
  = [BANK_STR; ""; "20"; "9b1deb4d3b7d4bad9bdd2b0d7b3dcb6d"] /\
  List.length (split "-" (toString (Toy.fresh_coin (VStr "alice") (VNum (-20))))) = 6%nat /\
  parseCoin (toString (Toy.fresh_coin (VStr "alice") (VNum (-20))))
  = Ok (["9b1deb4d3b7d4bad9bdd2b0d7b3dcb6d"],
        map (hash Toy.platform) (leftIdent (Toy.fresh_coin (VStr "alice") (VNum (-20))))) /\
  parseCoin (toString (Toy.fresh_coin (VStr "alice") (VNum (-20))))
  <> Ok (map (hash Toy.platform) (leftIdent (Toy.fresh_coin (VStr "alice") (VNum (-20)))),
         map (hash Toy.platform) (rightIdent (Toy.fresh_coin (VStr "alice") (VNum (-20))))).
Proof.
  vm_compute. repeat split. discriminate.
Qed.

(** C3, amended.  On a constructed coin whose amount and guid do not
    hold ['-'] and whose hashes hold neither ['-'] nor [','], splitting
    [toString()] on ['-'] gives exactly the five fields bank tag, amount,
    guid, comma-joined left hashes, comma-joined right hashes, and the
    two lists [parseCoin] returns are the hashes of the identity lists,
    as embedded at construction. *)
Theorem serialization_fields_recovered
        (P : Platform) (purchaser amount0 n0 e0 : value) (w w' : World)
        (c0 c : Coin) :
  construct P purchaser amount0 n0 e0 w = (Ok c0, w') ->
  evolves P c0 c ->
  delimiter_free P c = true ->
  split "-" (toString c)
  = [BANK_STR; to_string (amount c); guid c;
     join "," (map (hash P) (leftIdent c));
     join "," (map (hash P) (rightIdent c))] /\
  parseCoin (toString c)
  = Ok (map (hash P) (leftIdent c), map (hash P) (rightIdent c)).
Proof.
  exact (@constructed_coin_parses P purchaser amount0 n0 e0 w w' c0 c).
Qed.

Lemma serialization_fields_recovered_witness :
  parseCoin (toString (Toy.spendable_coin (VStr "alice") (VNum 20)))
  = Ok (map (hash Toy.platform) (leftIdent (Toy.spendable_coin (VStr "alice") (VNum 20))),
        map (hash Toy.platform) (rightIdent (Toy.spendable_coin (VStr "alice") (VNum 20)))).
Proof.
  refine (proj2 (@serialization_fields_recovered
                   Toy.platform (VStr "alice") (VNum 20) Toy.BANK_N Toy.BANK_E []
                   (snd (Toy.built (VStr "alice") (VNum 20)))
                   (Toy.fresh_coin (VStr "alice") (VNum 20))
                   (Toy.spendable_coin (VStr "alice") (VNum 20)) _ _ _)).
  - vm_compute. reflexivity.
  - apply evolves_unblinded with (c := Toy.signed_coin (VStr "alice") (VNum 20)).
    + apply evolves_signed, evolves_built.
    + vm_compute. reflexivity.
  - vm_compute. reflexivity.
Defined.

(* ================================================================== *)
(** * The commitments stay in step with the identity lists *)
(* ================================================================== *)

(** C4.  On a constructed coin, at any later point of its life, the
    commitment string that [toString()] returns is the one built from
    two lists of [K] hashes, and for every [i] in [[0, K)] the hash of
    [getRis(true, i)] is the [i]-th element of the first list and the hash
    of [getRis(false, i)] the [i]-th element of the second: the identity
    lists and the hash lists were filled in step and nothing after the
    constructor changes either. *)
Theorem hashes_in_lock_step
        (P : Platform) (purchaser amount0 n0 e0 : value) (w w' : World)
        (c0 c : Coin) :
  construct P purchaser amount0 n0 e0 w = (Ok c0, w') ->
  evolves P c0 c ->
  exists leftHashes rightHashes : list string,
    toString c = make_coinString (amount c) (guid c) leftHashes rightHashes /\
    toString c = toString c0 /\
    List.length leftHashes = COIN_RIS_LENGTH /\
    List.length rightHashes = COIN_RIS_LENGTH /\
    (delimiter_free P c = true ->
     parseCoin (toString c) = Ok (leftHashes, rightHashes)) /\
    forall i : nat,
      (i < COIN_RIS_LENGTH)%nat ->
      exists left right : Buffer,
        getRis c true (Z.of_nat i) = Ok (Some left) /\
        nth_error leftHashes i = Some (hash P left) /\
        getRis c false (Z.of_nat i) = Ok (Some right) /\
        nth_error rightHashes i = Some (hash P right).
Proof.
  intros Hc Hev.
  pose proof (fun H => proj2 (constructed_coin_parses _ _ _ _ _ Hc Hev H)) as Hparse.
  apply construct_ok in Hc. destruct Hc as (Hcm & _).
  pose proof (evolves_commits Hcm Hev) as Hcm'.
  destruct (commits_lengths Hcm') as [Hl Hr].
  destruct Hcm' as (_ & _ & _ & Hs).
  exists (map (hash P) (leftIdent c)), (map (hash P) (rightIdent c)).
  split; [exact Hs|]. split; [apply (evolves_frame Hev)|].
  rewrite !length_map. split; [exact Hl|]. split; [exact Hr|].
  split; [exact Hparse|].
  intros i Hi.
  destruct (@nth_error_defined _ (leftIdent c) i) as [left Hleft]; [lia|].
  destruct (@nth_error_defined _ (rightIdent c) i) as [right Hright]; [lia|].
  exists left, right.
  rewrite !getRis_in_range by lia. rewrite Nat2Z.id.
  rewrite !nth_error_map, Hleft, Hright. repeat split.
Qed.

Lemma hashes_in_lock_step_witness :
  exists leftHashes rightHashes : list string,
    toString (Toy.spendable_coin (VStr "alice") (VNum 20))
    = make_coinString (VNum 20) "9b1deb4d3b7d4bad9bdd2b0d7b3dcb6d"
                      leftHashes rightHashes /\
    List.length leftHashes = 20%nat /\
    nth_error leftHashes 0 = Some "90425937" /\
    nth_error rightHashes 0 = Some "8f1ba782".
Proof.
  destruct (@hashes_in_lock_step
              Toy.platform (VStr "alice") (VNum 20) Toy.BANK_N Toy.BANK_E []
              (snd (Toy.built (VStr "alice") (VNum 20)))
              (Toy.fresh_coin (VStr "alice") (VNum 20))
              (Toy.spendable_coin (VStr "alice") (VNum 20)))
    as (lh & rh & Hs & _ & Hl & _ & _ & Hi).
  - vm_compute. reflexivity.
  - apply evolves_unblinded with (c := Toy.signed_coin (VStr "alice") (VNum 20)).
    + apply evolves_signed, evolves_built.
    + vm_compute. reflexivity.
  - exists lh, rh. split; [exact Hs|]. split; [exact Hl|].
    destruct (Hi 0%nat) as (l & r & Hgl & Hnl & Hgr & Hnr); [unfold COIN_RIS_LENGTH; lia|].
    vm_compute in Hgl, Hgr.
    injection Hgl as <-. injection Hgr as <-.
    split; [exact Hnl | exact Hnr].
Defined.

(* ================================================================== *)
(** * Acceptance by a merchant *)
(* ================================================================== *)

Lemma calls_journal (ev : Event) (w : World) : calls (journal ev w) = S (calls w).
Proof.
  unfold calls, journal. rewrite length_app. simpl. lia.
Qed.

Lemma differs_same (s : string) : differs (Some s) s = false.
Proof.
  simpl. now rewrite String.eqb_refl.
Qed.

(** The loop of [acceptCoin] on a coin whose parsed hashes are those of
    its identity lists: it runs to its end, one draw per pass, and
    appends the hexadecimal form of the value [getRis] gives for the
    side drawn. *)
Lemma accept_loop_run (P : Platform) (coin : Coin) (passes : nat) :
  forall (i : nat) (ris : list string) (w : World),
    (i + passes <= COIN_RIS_LENGTH)%nat ->
    (i + passes <= List.length (leftIdent coin))%nat ->
    (i + passes <= List.length (rightIdent coin))%nat ->
    exists (ris' : list string) (w' : World),
      accept_loop P passes i coin (map (hash P) (leftIdent coin))
                  (map (hash P) (rightIdent coin)) ris w
      = (Ok (ris ++ ris')%list, w') /\
      List.length ris' = passes /\
      forall j : nat,
        (j < passes)%nat ->
        exists (buf : Buffer) (wj : World),
          calls wj = (calls w + j)%nat /\
          getRis coin (picks_left P wj) (Z.of_nat (i + j)) = Ok (Some buf) /\
          nth_error ris' j = Some (hex_encode buf).
Proof.
  induction passes as [|passes IH]; intros i ris w Hk Hl Hr.
  - exists [], w. rewrite app_nil_r. repeat split. intros j Hj. lia.
  - cbn [accept_loop]. unfold bind at 1. unfold randInt.
    fold (picks_left P w).
    unfold bind at 1. unfold lift.
    rewrite getRis_in_range by lia. rewrite Nat2Z.id.
    assert (Hbuf : exists buf,
               nth_error (if picks_left P w then leftIdent coin else rightIdent coin) i
               = Some buf).
    { apply nth_error_defined. destruct (picks_left P w); lia. }
    destruct Hbuf as [buf Hbuf]. rewrite Hbuf.
    assert (Hexp : (if picks_left P w
                    then nth_error (map (hash P) (leftIdent coin)) i
                    else nth_error (map (hash P) (rightIdent coin)) i)
                   = Some (hash P buf)).
    { destruct (picks_left P w); rewrite nth_error_map, Hbuf; reflexivity. }
    rewrite Hexp, differs_same.
    destruct (IH (S i) (ris ++ [hex_encode buf])%list (journal (EvRandInt 2) w))
      as (ris' & w' & Hrun & Hlen & Hidx); try lia.
    exists (hex_encode buf :: ris'), w'.
    rewrite Hrun, <- app_assoc. split; [reflexivity|].
    split; [simpl; now rewrite Hlen|].
    intros [|j] Hj.
    + exists buf, w. rewrite !Nat.add_0_r. split; [reflexivity|].
      rewrite getRis_in_range by lia. rewrite Nat2Z.id, Hbuf. auto.
    + destruct (Hidx j) as (b & wj & Hw & Hg & Hn); [lia|].
      exists b, wj. rewrite calls_journal in Hw.
      replace (i + S j)%nat with (S i + j)%nat by lia.
      split; [lia|]. auto.
Qed.

(** The loop never throws the error of the signature check. *)
Lemma accept_loop_other_errors (P : Platform) (coin : Coin)
      (leftHashes rightHashes : list string) (passes : nat) :
  forall (i : nat) (ris : list string) (w : World),
    fst (accept_loop P passes i coin leftHashes rightHashes ris w)
    <> Throw "Invalid coin signature".
Proof.
  induction passes as [|passes IH]; intros i ris w; [discriminate|].
  cbn [accept_loop]. unfold bind at 1. unfold randInt.
  unfold bind at 1. unfold lift, getRis.
  destruct ((Z.of_nat i <? 0)%Z || (Z.of_nat i >=? Z.of_nat COIN_RIS_LENGTH)%Z);
    [discriminate|].
  match goal with
  | |- context [match ?x with Some _ => _ | None => _ end] => destruct x as [buf|]
  end; [|discriminate].
  match goal with
  | |- context [differs ?x ?y] => destruct (differs x y)
  end; [discriminate|]. apply IH.
Qed.

Lemma parseCoin_other_errors (s : string) :
  parseCoin s <> Throw "Invalid coin signature".
Proof.
  unfold parseCoin.
  destruct (differs (nth_error (split "-" s) 0) BANK_STR); [discriminate|].
  destruct (nth_error (split "-" s) 3); [|discriminate].
  destruct (nth_error (split "-" s) 4); discriminate.
Qed.

(** C6, which the code does not bear out: the coin for the amount -20
    is correctly signed, the bank's key verifies its signature against
    its commitment string, nobody tampered with it, and [acceptCoin]
    throws at the first index. *)
Lemma signed_negative_amount_coin_refused :
  unblind Toy.platform (Toy.signed_coin (VStr "alice") (VNum (-20)))
  = Ok (Toy.spendable_coin (VStr "alice") (VNum (-20))) /\
  bs_verify Toy.platform
            (signature (Toy.spendable_coin (VStr "alice") (VNum (-20))))
            Toy.BANK_N Toy.BANK_E
            (toString (Toy.spendable_coin (VStr "alice") (VNum (-20)))) = true /\
  fst (acceptCoin Toy.platform Toy.BANK_N Toy.BANK_E
                  (Toy.spendable_coin (VStr "alice") (VNum (-20))) [])
  = Throw "RIS hash mismatch at position 0".
Proof.
  vm_compute. repeat split.
Qed.

(** C6, amended.  [acceptCoin] throws "Invalid coin signature" exactly
    when the library's verify rejects the coin's signature against
    [toString()] under the bank's key.  On a constructed coin that
    verifies and whose amount, guid and hashes are free of the
    delimiters, it does not throw: it returns a report of [K] elements,
    the [i]-th being the hexadecimal form of [getRis] at [i] for the side
    drawn at the [i]-th draw. *)
Theorem acceptCoin_spec (P : Platform) (BANK_N BANK_E : value) :
  (forall (coin : Coin) (w : World),
      fst (acceptCoin P BANK_N BANK_E coin w) = Throw "Invalid coin signature"
      <-> bs_verify P (signature coin) BANK_N BANK_E (toString coin) = false) /\
  (forall (purchaser amount0 n0 e0 : value) (w0 w0' w : World) (c0 c : Coin),
      construct P purchaser amount0 n0 e0 w0 = (Ok c0, w0') ->
      evolves P c0 c ->
      bs_verify P (signature c) BANK_N BANK_E (toString c) = true ->
      delimiter_free P c = true ->
      exists (ris : list string) (w' : World),
        acceptCoin P BANK_N BANK_E c w = (Ok ris, w') /\
        List.length ris = COIN_RIS_LENGTH /\
        forall i : nat,
          (i < COIN_RIS_LENGTH)%nat ->
          exists (buf : Buffer) (wi : World),
            calls wi = (calls w + i)%nat /\
            getRis c (picks_left P wi) (Z.of_nat i) = Ok (Some buf) /\
            nth_error ris i = Some (hex_encode buf)).
Proof.
  split.
  - intros coin w. unfold acceptCoin.
    destruct (bs_verify P (signature coin) BANK_N BANK_E (toString coin)).
    + cbn [negb]. split; [|discriminate].
      unfold bind, lift.
      pose proof (parseCoin_other_errors (toString coin)) as Hp.
      destruct (parseCoin (toString coin)) as [[lh rh]|msg].
      * intros H. now apply accept_loop_other_errors in H.
      * cbn [fst]. intros H. congruence.
    + cbn [negb]. split; reflexivity.
  - intros purchaser amount0 n0 e0 w0 w0' w c0 c Hc Hev Hv Hfree.
    destruct (constructed_coin_parses _ _ _ _ _ Hc Hev Hfree) as [_ Hp].
    apply construct_ok in Hc. destruct Hc as (Hcm & _).
    pose proof (evolves_commits Hcm Hev) as Hcm'.
    destruct (commits_lengths Hcm') as [Hl Hr].
    unfold acceptCoin. rewrite Hv. cbn [negb].
    unfold bind, lift. rewrite Hp.
    destruct (@accept_loop_run P c COIN_RIS_LENGTH 0 [] w)
      as (ris & w' & Hrun & Hlen & Hidx); try (simpl; lia).
    exists ris, w'. split; [exact Hrun|]. split; [exact Hlen|].
    exact Hidx.
Qed.

Lemma acceptCoin_spec_witness :
  exists (ris : list string) (w' : World),
    acceptCoin Toy.platform Toy.BANK_N Toy.BANK_E
               (Toy.spendable_coin (VStr "alice") (VNum 20)) []
    = (Ok ris, w') /\
    List.length ris = 20%nat.
Proof.
  destruct (proj2 (acceptCoin_spec Toy.platform Toy.BANK_N Toy.BANK_E)
                  (VStr "alice") (VNum 20) Toy.BANK_N Toy.BANK_E []
                  (snd (Toy.built (VStr "alice") (VNum 20))) []
                  (Toy.fresh_coin (VStr "alice") (VNum 20))
                  (Toy.spendable_coin (VStr "alice") (VNum 20)))
    as (ris & w' & Hrun & Hlen & _).
  - vm_compute. reflexivity.
  - apply evolves_unblinded with (c := Toy.signed_coin (VStr "alice") (VNum 20)).
    + apply evolves_signed, evolves_built.
    + vm_compute. reflexivity.
  - vm_compute. reflexivity.
  - vm_compute. reflexivity.
  - exists ris, w'. split; [exact Hrun | exact Hlen].
Defined.

(* ================================================================== *)
(** * Reconciliation: a coin spent twice *)
(* ================================================================== *)

Lemma nth_error_disclosure (c : Coin) (side : nat -> bool) (i : nat) :
  (i < COIN_RIS_LENGTH)%nat ->
  nth_error (disclosure c side) i
  = Some (hex_encode (nth i (if side i then leftIdent c else rightIdent c) [])).
Proof.
  intros Hi. unfold disclosure.
  rewrite nth_error_map, nth_error_seq.
  destruct (Nat.ltb_spec i COIN_RIS_LENGTH); [reflexivity | lia].
Qed.

Lemma disclosure_length (c : Coin) (side : nat -> bool) :
  List.length (disclosure c side) = COIN_RIS_LENGTH.
Proof.
  unfold disclosure. now rewrite length_map, length_seq.
Qed.

Lemma xor_byte_fixed (a b : ascii) : xor_byte a b = b -> a = zero.
Proof.
  intros H. rewrite <- (xor_byte_cancel a b), H. apply xor_byte_self.
Qed.

Lemma xor_buffers_fixed_head (a k : ascii) (p key : Buffer) :
  k :: key = xor_buffers (a :: p) (k :: key) -> a = zero.
Proof.
  cbn [xor_buffers]. intros E. injection E as E _.
  symmetry in E. now apply xor_byte_fixed in E.
Qed.

Lemma startsWith_tag (s : string) : startsWith IDENT_STR (IDENT_STR ++ ":" ++ s) = true.
Proof.
  reflexivity.
Qed.

Lemma not_startsWith_zeros (k : nat) :
  startsWith IDENT_STR (Buffer_toString (repeat zero k)) = false.
Proof.
  destruct k; reflexivity.
Qed.

Lemma split_tag (s : string) :
  nth_error (split ":" (IDENT_STR ++ ":" ++ s)) 1 = up_to_colon s.
Proof.
  change (IDENT_STR ++ ":" ++ s) with (IDENT_STR ++ String ":" s).
  rewrite split_app by reflexivity. cbn [nth_error].
  unfold up_to_colon. destruct (split ":" s); reflexivity.
Qed.

Lemma up_to_colon_whole (s : string) :
  occurs ":" s = false -> up_to_colon s = Some s.
Proof.
  intros H. unfold up_to_colon. now rewrite split_no_sep.
Qed.

Section DoubleSpend.

Variable P : Platform.
Variable purchaser : value.
Variable c : Coin.
Hypothesis Hcommits : commits_to P purchaser c.

Lemma left_key_length (i : nat) :
  (i < COIN_RIS_LENGTH)%nat ->
  List.length (nth i (leftIdent c) []) = List.length (identity_plaintext purchaser).
Proof.
  intros Hi. destruct Hcommits as (Hlen & Hall & _).
  rewrite Forall_forall in Hall. apply Hall, nth_In. lia.
Qed.

Lemma right_is_pad (i : nat) :
  nth i (rightIdent c) [] = xor_buffers (identity_plaintext purchaser) (nth i (leftIdent c) []).
Proof.
  destruct Hcommits as (_ & _ & Hr & _). rewrite Hr.
  change (@nil ascii) with (xor_buffers (identity_plaintext purchaser) []) at 1.
  apply map_nth.
Qed.

Lemma left_differs_from_right (i : nat) :
  (i < COIN_RIS_LENGTH)%nat ->
  nth i (leftIdent c) [] <> nth i (rightIdent c) [].
Proof.
  intros Hi E. rewrite right_is_pad in E.
  pose proof (left_key_length Hi) as Hlen.
  assert (Hplain : exists rest, (identity_plaintext purchaser) = "I"%char :: rest)
    by (eexists; reflexivity).
  destruct Hplain as [rest Hplain]. rewrite Hplain in E, Hlen.
  destruct (nth i (leftIdent c) []) as [|k key]; [discriminate|].
  apply xor_buffers_fixed_head in E. discriminate.
Qed.

(** The body of the scanning loop on two disclosures of the coin. *)
Lemma try_index_disclosures (side1 side2 : nat -> bool) (i : nat) :
  (i < COIN_RIS_LENGTH)%nat ->
  try_index (disclosure c side1) (disclosure c side2) i
  = if Bool.eqb (side1 i) (side2 i) then Ok Continue
    else Ok (Return (up_to_colon (to_string purchaser))).
Proof.
  intros Hi. unfold try_index.
  rewrite !nth_error_disclosure by assumption.
  rewrite !hex_decode_encode.
  pose proof (left_key_length Hi) as Hlen.
  pose proof (right_is_pad i) as Hpad.
  assert (Hplain : Buffer_toString (identity_plaintext purchaser) = IDENT_STR ++ ":" ++ to_string purchaser).
  { unfold identity_plaintext, Buffer_toString, Buffer_from.
    apply string_of_list_ascii_of_string. }
  assert (Hrl : List.length (nth i (rightIdent c) []) = List.length (identity_plaintext purchaser)).
  { rewrite Hpad, xor_buffers_length; [reflexivity | now symmetry]. }
  destruct (side1 i), (side2 i); cbn [Bool.eqb].
  - rewrite Nat.eqb_refl. cbn [negb]. unfold decryptOTP.
    now rewrite xor_buffers_self, not_startsWith_zeros.
  - rewrite Hlen, Hrl, Nat.eqb_refl. cbn [negb]. unfold decryptOTP.
    rewrite Hpad, xor_buffers_cancel by assumption.
    now rewrite Hplain, startsWith_tag, split_tag.
  - rewrite Hlen, Hrl, Nat.eqb_refl. cbn [negb]. unfold decryptOTP.
    rewrite Hpad, xor_buffers_comm, xor_buffers_cancel by assumption.
    now rewrite Hplain, startsWith_tag, split_tag.
  - rewrite Nat.eqb_refl. cbn [negb]. unfold decryptOTP.
    now rewrite xor_buffers_self, not_startsWith_zeros.
Qed.

Lemma scan_disclosures (side1 side2 : nat -> bool) (passes : nat) :
  forall i : nat,
    (i + passes = COIN_RIS_LENGTH)%nat ->
    (exists j, (i <= j < COIN_RIS_LENGTH)%nat /\ side1 j <> side2 j) ->
    scan passes i (disclosure c side1) (disclosure c side2)
    = PurchaserCheated (up_to_colon (to_string purchaser)).
Proof.
  induction passes as [|passes IH]; intros i Hi (j & Hj & Hd); [lia|].
  cbn [scan]. rewrite try_index_disclosures by lia.
  destruct (Bool.eqb (side1 i) (side2 i)) eqn:E; [|reflexivity].
  apply IH; [lia|]. exists j. split; [|assumption].
  apply Bool.eqb_prop in E.
  assert (j <> i) by (intros ->; contradiction). lia.
Qed.

Lemma disclosures_differ (side1 side2 : nat -> bool) :
  (exists j, (j < COIN_RIS_LENGTH)%nat /\ side1 j <> side2 j) ->
  disclosure c side1 <> disclosure c side2.
Proof.
  intros (j & Hj & Hd) E.
  apply (f_equal (fun l => nth_error l j)) in E.
  rewrite !nth_error_disclosure in E by assumption.
  injection E as E. apply hex_encode_inj in E.
  pose proof (left_differs_from_right Hj) as Hne.
  destruct (side1 j), (side2 j); congruence.
Qed.

(** Two disclosures of one coin that take opposite sides somewhere
    unmask the purchaser: [determineCheater] names the text of the
    purchaser up to its first colon. *)
Lemma double_spend_unmasks (guid0 : string) (side1 side2 : nat -> bool) :
  (exists j, (j < COIN_RIS_LENGTH)%nat /\ side1 j <> side2 j) ->
  determineCheater guid0 (disclosure c side1) (disclosure c side2)
  = PurchaserCheated (up_to_colon (to_string purchaser)).
Proof.
  intros Hd. unfold determineCheater.
  destruct (JSON_stringify (disclosure c side1) =? JSON_stringify (disclosure c side2))
    eqn:E.
  - apply JSON_stringify_eqb in E. now apply disclosures_differ in Hd.
  - rewrite disclosure_length. apply scan_disclosures; [reflexivity|].
    destruct Hd as (j & Hj & Hd). exists j. split; [lia | assumption].
Qed.

End DoubleSpend.

(** What [acceptCoin] returns on a coin it accepts is the disclosure of
    the sides drawn, one draw per index from the world it starts in. *)
Lemma acceptCoin_disclosure
      (P : Platform) (BANK_N BANK_E purchaser amount0 n0 e0 : value)
      (w0 w0' w : World) (c0 c : Coin) :
  construct P purchaser amount0 n0 e0 w0 = (Ok c0, w0') ->
  evolves P c0 c ->
  bs_verify P (signature c) BANK_N BANK_E (toString c) = true ->
  delimiter_free P c = true ->
  fst (acceptCoin P BANK_N BANK_E c w)
  = Ok (disclosure c (fun i => (random_nat P (calls w + i) mod 2 =? 0)%N)).
Proof.
  intros Hc Hev Hv Hfree.
  destruct (constructed_coin_parses _ _ _ _ _ Hc Hev Hfree) as [_ Hp].
  apply construct_ok in Hc. destruct Hc as (Hcm & _).
  pose proof (evolves_commits Hcm Hev) as Hcm'.
  destruct (commits_lengths Hcm') as [Hl Hr].
  unfold acceptCoin. rewrite Hv. cbn [negb].
  unfold bind, lift. rewrite Hp.
  destruct (@accept_loop_run P c COIN_RIS_LENGTH 0 [] w)
    as (ris & w' & Hrun & Hlen & Hidx); try (simpl; lia).
  rewrite Hrun. cbn [fst app]. f_equal.
  apply nth_error_ext. intros i.
  destruct (Nat.lt_ge_cases i COIN_RIS_LENGTH) as [Hi | Hi].
  - rewrite nth_error_disclosure by assumption.
    destruct (Hidx i Hi) as (buf & wi & Hw & Hg & Hn).
    rewrite Hn. f_equal. f_equal.
    rewrite getRis_in_range in Hg by (cbn [Nat.add]; lia).
    cbn [Nat.add] in Hg. rewrite Nat2Z.id in Hg. injection Hg as Hg.
    unfold picks_left in Hg. rewrite Hw in Hg.
    symmetry. now apply nth_error_nth.
  - transitivity (@None string).
    + apply nth_error_None. lia.
    + symmetry. apply nth_error_None. rewrite disclosure_length. lia.
Qed.

(** When the text of the purchaser holds no colon, two disclosures of
    one coin that take opposite sides somewhere name the purchaser. *)
Lemma double_spend_names_purchaser
      (P : Platform) (p : string) (amount0 n0 e0 : value) (w w' : World)
      (c0 c : Coin) (guid0 : string) (side1 side2 : nat -> bool) :
  construct P (VStr p) amount0 n0 e0 w = (Ok c0, w') ->
  evolves P c0 c ->
  occurs ":" p = false ->
  (exists j, (j < COIN_RIS_LENGTH)%nat /\ side1 j <> side2 j) ->
  determineCheater guid0 (disclosure c side1) (disclosure c side2)
  = PurchaserCheated (Some p).
Proof.
  intros Hc Hev Hp Hd.
  apply construct_ok in Hc. destruct Hc as (Hcm & _).
  pose proof (evolves_commits Hcm Hev) as Hcm'.
  rewrite (@double_spend_unmasks P (VStr p) c Hcm' guid0 side1 side2 Hd).
  cbn [to_string]. now rewrite up_to_colon_whole.
Qed.

(** C1, at an input where the code departs from it: for the purchaser
    "al:ice" the coin is issued and accepted twice, the two reports
    differ, at index 0 the first discloses the key and the second the
    ciphertext, and [determineCheater] names "al", not "al:ice". *)
Theorem colon_in_identity_truncated :
  exists ris1 ris2 : list string,
    Toy.two_reports (Toy.spendable_coin (VStr "al:ice") (VNum 20)) = Ok (ris1, ris2) /\
    ris1 <> ris2 /\
    nth_error ris1 0
    = option_map hex_encode
                 (nth_error (leftIdent (Toy.spendable_coin (VStr "al:ice") (VNum 20))) 0) /\
    nth_error ris2 0
    = option_map hex_encode
                 (nth_error (rightIdent (Toy.spendable_coin (VStr "al:ice") (VNum 20))) 0) /\
    determineCheater (guid (Toy.spendable_coin (VStr "al:ice") (VNum 20))) ris1 ris2
    = PurchaserCheated (Some "al").
Proof.
  eexists. eexists. split; [vm_compute; reflexivity|].
  split; [discriminate|]. vm_compute. repeat split.
Qed.

(* ================================================================== *)
(** * Reconciliation: every pair of reports *)
(* ================================================================== *)

(** The scanning loop stops at the first index whose pass returns, and
    concludes nothing when no pass does; a pass that throws counts as one
    that continues. *)
Lemma scan_first_return (ris1 ris2 : list string) (passes : nat) :
  forall i : nat,
    (scan passes i ris1 ris2 = Undetermined /\
     forall j, (i <= j < i + passes)%nat ->
               forall p, try_index ris1 ris2 j <> Ok (Return p)) \/
    (exists j p,
        (i <= j < i + passes)%nat /\
        try_index ris1 ris2 j = Ok (Return p) /\
        (forall k, (i <= k < j)%nat ->
                   forall q, try_index ris1 ris2 k <> Ok (Return q)) /\
        scan passes i ris1 ris2 = PurchaserCheated p).
Proof.
  induction passes as [|passes IH]; intros i.
  - left. split; [reflexivity|]. intros j Hj. lia.
  - cbn [scan].
    destruct (try_index ris1 ris2 i) as [[|p]|msg] eqn:E.
    + destruct (IH (S i)) as [[Hu Hn] | (j & p & Hj & Hr & Hb & Hs)].
      * left. split; [exact Hu|]. intros j Hj p.
        destruct (Nat.eq_dec j i) as [-> | Hne]; [congruence | apply Hn; lia].
      * right. exists j, p. split; [lia|]. split; [exact Hr|]. split; [|exact Hs].
        intros k Hk q.
        destruct (Nat.eq_dec k i) as [-> | Hne]; [congruence | apply Hb; lia].
    + right. exists i, p. split; [lia|]. split; [exact E|].
      split; [|reflexivity]. intros k Hk. lia.
    + destruct (IH (S i)) as [[Hu Hn] | (j & p & Hj & Hr & Hb & Hs)].
      * left. split; [exact Hu|]. intros j Hj p.
        destruct (Nat.eq_dec j i) as [-> | Hne]; [congruence | apply Hn; lia].
      * right. exists j, p. split; [lia|]. split; [exact Hr|]. split; [|exact Hs].
        intros k Hk q.
        destruct (Nat.eq_dec k i) as [-> | Hne]; [congruence | apply Hb; lia].
Qed.

(** A pass returns exactly when both reports have an element at the
    index, the two decode to buffers of one length, and their XOR starts
    with the tag; the identity it returns is the second piece of that
    text split on [':'], or [undefined]. *)
Lemma try_index_returns (ris1 ris2 : list string) (i : nat) (p : option string) :
  try_index ris1 ris2 i = Ok (Return p) <->
  exists s1 s2,
    nth_error ris1 i = Some s1 /\ nth_error ris2 i = Some s2 /\
    List.length (hex_decode s1) = List.length (hex_decode s2) /\
    startsWith IDENT_STR (decryptOTP (hex_decode s1) (hex_decode s2)) = true /\
    p = nth_error (split ":" (decryptOTP (hex_decode s1) (hex_decode s2))) 1.
Proof.
  unfold try_index. split.
  - destruct (nth_error ris1 i) as [s1|]; [|discriminate].
    destruct (nth_error ris2 i) as [s2|]; [|discriminate].
    destruct (Nat.eqb_spec (List.length (hex_decode s1)) (List.length (hex_decode s2)))
      as [El | Nl]; cbn [negb]; [|discriminate].
    destruct (startsWith IDENT_STR (decryptOTP (hex_decode s1) (hex_decode s2))) eqn:Es;
      [|discriminate].
    intros H. injection H as <-. exists s1, s2. auto.
  - intros (s1 & s2 & -> & -> & El & Es & ->).
    rewrite El, Nat.eqb_refl, Es. reflexivity.
Qed.

(** [determineCheater] always concludes, with one of three outcomes:
    equal reports accuse the merchant; otherwise the first index whose
    pass returns accuses a purchaser; otherwise nothing is determined. *)
Lemma determineCheater_cases (guid0 : string) (ris1 ris2 : list string) :
  (ris1 = ris2 /\ determineCheater guid0 ris1 ris2 = MerchantCheated) \/
  (ris1 <> ris2 /\
   (forall j, (j < List.length ris1)%nat ->
              forall p, try_index ris1 ris2 j <> Ok (Return p)) /\
   determineCheater guid0 ris1 ris2 = Undetermined) \/
  (ris1 <> ris2 /\
   exists j p,
     (j < List.length ris1)%nat /\
     try_index ris1 ris2 j = Ok (Return p) /\
     (forall k, (k < j)%nat -> forall q, try_index ris1 ris2 k <> Ok (Return q)) /\
     determineCheater guid0 ris1 ris2 = PurchaserCheated p).
Proof.
  unfold determineCheater.
  destruct (JSON_stringify ris1 =? JSON_stringify ris2) eqn:E.
  - left. apply JSON_stringify_eqb in E. auto.
  - right.
    assert (Hne : ris1 <> ris2).
    { intros ->. rewrite String.eqb_refl in E. discriminate. }
    destruct (scan_first_return ris1 ris2 (List.length ris1) 0)
      as [[Hu Hn] | (j & p & Hj & Hr & Hb & Hs)].
    + left. split; [exact Hne|]. split; [|exact Hu].
      intros j Hj. apply Hn. lia.
    + right. split; [exact Hne|]. exists j, p.
      split; [lia|]. split; [exact Hr|]. split; [|exact Hs].
      intros k Hk. apply Hb. lia.
Qed.

(** C7, at an input where the code departs from it: the two one-element
    reports decode to five zero bytes and to the bytes of "IDENT"; their
    XOR is "IDENT", which is not of the form "IDENT:" followed by an
    identity, yet the pass returns, with [undefined] for the purchaser:
    the outcome is an accusation, not [Undetermined]. *)
Theorem tag_without_colon_accuses_undefined :
  decryptOTP (hex_decode "0000000000") (hex_decode "4944454e54") = "IDENT" /\
  startsWith "IDENT:" "IDENT" = false /\
  try_index ["0000000000"] ["4944454e54"] 0 = Ok (Return None) /\
  determineCheater "9b1deb4d" ["0000000000"] ["4944454e54"] = PurchaserCheated None /\
  console_log "9b1deb4d" (determineCheater "9b1deb4d" ["0000000000"] ["4944454e54"])
  = "Coin 9b1deb4d: Purchaser undefined is cheating!".
Proof.
  vm_compute. repeat split.
Qed.

(* ================================================================== *)
(** * The constructor in closed form *)
(* ================================================================== *)

Lemma pad_keys_succ (P : Platform) (t len k : nat) :
  pad_keys P t len (S k) = pad_key P t len 0 :: pad_keys P (S t) len k.
Proof.
  unfold pad_keys. cbn [seq map]. f_equal.
  rewrite <- seq_shift, map_map. apply map_ext. intros j.
  unfold pad_key. now rewrite Nat.add_succ_r.
Qed.

(** The loop of the constructor, pass by pass: the keys are those of the
    successive calls and every call is journalled. *)
Lemma commit_loop_exact (P : Platform) (purchaser : value) (passes : nat) :
  forall (cm : Commitments) (w : World),
    commit_loop P passes purchaser cm w
    = (let plain := identity_plaintext purchaser in
       let keys := pad_keys P (calls w) (List.length plain) passes in
       let ciphers := map (xor_buffers plain) keys in
       (Ok (mkCommitments (cm_leftIdent cm ++ keys)
                          (cm_leftHashes cm ++ map (hash P) keys)
                          (cm_rightIdent cm ++ ciphers)
                          (cm_rightHashes cm ++ map (hash P) ciphers)),
        (w ++ repeat (EvMakeOTP (IDENT_STR ++ ":" ++ to_string purchaser)) passes)%list)).
Proof.
  induction passes as [|passes IH]; intros cm w.
  - cbn. rewrite !app_nil_r. destruct cm; reflexivity.
  - cbn [commit_loop]. unfold bind at 1. unfold commit_step, bind, makeOTP, ret.
    rewrite IH. cbv zeta. rewrite calls_journal, pad_keys_succ.
    cbn [cm_leftIdent cm_leftHashes cm_rightIdent cm_rightHashes map repeat].
    unfold journal. rewrite <- !app_assoc. cbn [app].
    unfold pad_key, identity_plaintext. rewrite Nat.add_0_r. reflexivity.
Qed.

(** The constructor past its first test, written out. *)
Lemma construct_closed_form
        (P : Platform) (purchaser amount0 n0 e0 : value) (w : World) :
  truthy purchaser = true -> truthy amount0 = true ->
  truthy n0 = true -> truthy e0 = true ->
  construct P purchaser amount0 n0 e0 w
  = (let coin := coin_before_blinding P purchaser amount0 n0 e0 w in
     let w' := journal_of_constructor purchaser (coinString coin) w in
     match bs_blind P (calls w + 21) (coinString coin) n0 e0 with
     | Ok (b, r) =>
         if truthy b && truthy r then (Ok (set_blinding b r coin), w')
         else (Throw "Coin creation failed: Blinding failed: Blinding returned invalid values",
               w')
     | Throw msg => (Throw ("Coin creation failed: Blinding failed: " ++ msg), w')
     end).
Proof.
  intros Hp Ha Hn He. unfold construct. rewrite Hp, Ha, Hn, He. cbn [negb orb].
  unfold bind at 1. unfold makeGUID. unfold try_catch, bind.
  rewrite commit_loop_exact. cbv zeta.
  cbn [cm_leftIdent cm_leftHashes cm_rightIdent cm_rightHashes app].
  rewrite calls_journal.
  unfold blind, try_catch, throw. cbn [toString coinString n e].
  unfold coin_before_blinding. cbv zeta. cbn [coinString].
  assert (Hcalls : calls (journal EvMakeGUID w
                            ++ repeat (EvMakeOTP (IDENT_STR ++ ":" ++ to_string purchaser))
                                      COIN_RIS_LENGTH)%list
                   = (calls w + 21)%nat).
  { unfold calls, journal, COIN_RIS_LENGTH.
    rewrite !length_app, repeat_length. simpl. lia. }
  rewrite Hcalls.
  assert (Hj : forall message,
             journal (EvBlind message)
                     (journal EvMakeGUID w
                        ++ repeat (EvMakeOTP (IDENT_STR ++ ":" ++ to_string purchaser))
                                  COIN_RIS_LENGTH)%list
             = journal_of_constructor purchaser message w).
  { intros message. unfold journal, journal_of_constructor.
    rewrite <- !app_assoc. reflexivity. }
  rewrite Hj.
  match goal with
  | |- context [bs_blind P ?t ?m n0 e0] => destruct (bs_blind P t m n0 e0) as [[b r]|msg]
  end; [|reflexivity].
  destruct (truthy b), (truthy r); reflexivity.
Qed.



(** A coin straight from the constructor carries no signature, so
    [unblind()] on it stops at its guard; the error a caller sees has the
    prefix of the [catch] in front of the guard's own text. *)
Theorem unblind_before_signing
        (P : Platform) (purchaser amount0 n0 e0 : value) (w w' : World) (c : Coin) :
  construct P purchaser amount0 n0 e0 w = (Ok c, w') ->
  unblind P c = Throw "Unblinding failed: No signature to unblind".
Proof.
  intros Hc. apply construct_ok in Hc.
  destruct Hc as (_ & _ & _ & _ & _ & Hs & _).
  unfold unblind. now rewrite Hs.
Qed.

Lemma unblind_before_signing_witness :
  unblind Toy.platform (Toy.fresh_coin (VStr "alice") (VNum 20))
  = Throw "Unblinding failed: No signature to unblind".
Proof.
  apply (@unblind_before_signing
           Toy.platform (VStr "alice") (VNum 20) Toy.BANK_N Toy.BANK_E []
           (snd (Toy.built (VStr "alice") (VNum 20)))).
  vm_compute. reflexivity.
Defined.

(* ================================================================== *)
(** * What [parseCoin] accepts *)
(* ================================================================== *)

Lemma split_length (sep : ascii) (s : string) :
  List.length (split sep s) = S (count_char sep s).
Proof.
  induction s as [|c s IH]; [reflexivity|].
  cbn [split count_char]. destruct (c =? sep)%char.
  - cbn [List.length]. now rewrite IH.
  - destruct (split sep s) as [|x xs]; [discriminate IH|].
    cbn [List.length] in *. lia.
Qed.

Lemma split_not_nil (sep : ascii) (s : string) : split sep s <> [].
Proof.
  intros E. apply (f_equal (@List.length _)) in E.
  rewrite split_length in E. discriminate.
Qed.

(** A split with a second piece comes from a string that starts with
    the first piece and the separator. *)
Lemma split_two_inv (sep : ascii) (s x y : string) (r : list string) :
  split sep s = x :: y :: r ->
  exists s', s = x ++ String sep s' /\ split sep s' = y :: r.
Proof.
  revert x. induction s as [|c s IH]; intros x H; [discriminate|].
  cbn [split] in H. destruct (Ascii.eqb_spec c sep) as [-> | Hne].
  - injection H as <- H. exists s. auto.
  - destruct (split sep s) as [|x' xs'] eqn:E; [discriminate|].
    injection H as <- ->. destruct (IH x' eq_refl) as (s' & -> & Hs').
    exists s'. auto.
Qed.

Lemma prefix_app (p r : string) : String.prefix p (p ++ r) = true.
Proof.
  induction p as [|a p IH]; [destruct r; reflexivity|].
  cbn. destruct (ascii_dec a a); [exact IH | congruence].
Qed.

Lemma prefix_inv (p s : string) :
  String.prefix p s = true -> exists r, s = p ++ r.
Proof.
  revert s. induction p as [|a p IH]; intros s H.
  - exists s. reflexivity.
  - destruct s as [|b s]; [discriminate|]. cbn in H.
    destruct (ascii_dec a b) as [-> | _]; [|discriminate].
    destruct (IH _ H) as [r ->]. exists r. reflexivity.
Qed.

Lemma count_char_app (c : ascii) (a b : string) :
  count_char c (a ++ b) = (count_char c a + count_char c b)%nat.
Proof.
  induction a as [|d a IH]; [reflexivity|]. cbn [append count_char]. lia.
Qed.

(** [parseCoin] returns two lists exactly on the strings that start
    with the bank tag followed by ['-'] and hold at least four ['-'];
    the lists are then the comma-separated parts of the fourth and the
    fifth field, never empty, and what follows a fifth ['-'] is ignored. *)
Theorem parseCoin_succeeds_iff (s : string) :
  ((exists lh rh, parseCoin s = Ok (lh, rh))
   <-> startsWith (BANK_STR ++ "-") s = true /\ (4 <= count_char "-" s)%nat) /\
  (forall lh rh,
      parseCoin s = Ok (lh, rh) ->
      lh <> [] /\ rh <> [] /\
      exists f4 f5,
        nth_error (split "-" s) 3 = Some f4 /\
        nth_error (split "-" s) 4 = Some f5 /\
        lh = split "," f4 /\ rh = split "," f5).
Proof.
  assert (Hinv : forall lh rh,
             parseCoin s = Ok (lh, rh) ->
             nth_error (split "-" s) 0 = Some BANK_STR /\
             exists f4 f5,
               nth_error (split "-" s) 3 = Some f4 /\
               nth_error (split "-" s) 4 = Some f5 /\
               lh = split "," f4 /\ rh = split "," f5).
  { intros lh rh. unfold parseCoin.
    destruct (nth_error (split "-" s) 0) as [t|] eqn:E0; cbn [differs];
      [|discriminate].
    destruct (String.eqb_spec t BANK_STR) as [-> | _]; cbn [negb]; [|discriminate].
    destruct (nth_error (split "-" s) 3) as [f4|]; [|discriminate].
    destruct (nth_error (split "-" s) 4) as [f5|]; [|discriminate].
    intros H. injection H as <- <-. split; [reflexivity|]. exists f4, f5. auto. }
  split; [split|].
  - intros (lh & rh & H). destruct (Hinv _ _ H) as (H0 & f4 & f5 & _ & H4 & _).
    assert (Hlen : (4 < List.length (split "-" s))%nat).
    { apply nth_error_Some. rewrite H4. discriminate. }
    rewrite split_length in Hlen. split; [|lia].
    destruct (split "-" s) as [|x [|y r]] eqn:E; cbn in H0, H4; try discriminate.
    injection H0 as ->. apply split_two_inv in E. destruct E as (s' & -> & _).
    unfold startsWith.
    change (BANK_STR ++ String "-" s') with ((BANK_STR ++ "-") ++ s').
    apply prefix_app.
  - intros [Hp Hc]. unfold startsWith in Hp. apply prefix_inv in Hp.
    destruct Hp as [r ->].
    change ((BANK_STR ++ "-") ++ r) with (BANK_STR ++ String "-" r) in *.
    rewrite count_char_app in Hc. cbn [count_char] in Hc.
    change (count_char "-" BANK_STR) with 0%nat in Hc.
    change (("-" =? "-")%char) with true in Hc. cbn [Nat.add] in Hc.
    unfold parseCoin. rewrite split_app by reflexivity.
    pose proof (split_length "-" r) as Hlen.
    destruct (split "-" r) as [|y1 [|y2 [|y3 [|y4 ys]]]]; cbn [List.length] in Hlen;
      try lia.
    cbn [nth_error differs]. rewrite String.eqb_refl. cbn [negb]. eauto.
  - intros lh rh H. destruct (Hinv _ _ H) as (_ & f4 & f5 & H3 & H4 & -> & ->).
    split; [apply split_not_nil|]. split; [apply split_not_nil|].
    exists f4, f5. auto.
Qed.

Lemma parseCoin_succeeds_iff_witness :
  startsWith (BANK_STR ++ "-") "ELECTRONIC_PIGGYBANK-20-9b1d-aa,bb-cc,dd-ignored" = true /\
  (4 <= count_char "-" "ELECTRONIC_PIGGYBANK-20-9b1d-aa,bb-cc,dd-ignored")%nat.
Proof.
  apply (proj1 (proj1 (parseCoin_succeeds_iff
                         "ELECTRONIC_PIGGYBANK-20-9b1d-aa,bb-cc,dd-ignored"))).
  exists ["aa"; "bb"], ["cc"; "dd"]. reflexivity.
Defined.

(* ================================================================== *)
(** * What [acceptCoin] accepts *)
(* ================================================================== *)

Lemma side_at_journal (P : Platform) (ev : Event) (w : World) (j : nat) :
  side_at P (journal ev w) j = side_at P w (S j).
Proof.
  unfold side_at. rewrite calls_journal. now rewrite Nat.add_succ_r.
Qed.

Lemma side_at_zero (P : Platform) (w : World) :
  side_at P w 0 = (random_nat P (calls w) mod 2 =? 0)%N.
Proof.
  unfold side_at. now rewrite Nat.add_0_r.
Qed.

(** One pass of the loop, in terms of the test it makes. *)
Lemma accept_loop_step (P : Platform) (coin : Coin)
      (leftHashes rightHashes : list string) (passes i : nat)
      (ris : list string) (w : World) :
  (i < COIN_RIS_LENGTH)%nat ->
  accept_loop P (S passes) i coin leftHashes rightHashes ris w
  = match nth_error (if side_at P w 0 then leftIdent coin else rightIdent coin) i with
    | None => (Throw "Cannot read properties of undefined (reading 'toString')",
               journal (EvRandInt 2) w)
    | Some buf =>
        if matches_commitment P coin leftHashes rightHashes (side_at P w 0) i
        then accept_loop P passes (S i) coin leftHashes rightHashes
                         (ris ++ [hex_encode buf]) (journal (EvRandInt 2) w)
        else (Throw ("RIS hash mismatch at position " ++ string_of_Z (Z.of_nat i)),
              journal (EvRandInt 2) w)
    end.
Proof.
  intros Hi. cbn [accept_loop]. unfold bind at 1. unfold randInt.
  rewrite <- side_at_zero. unfold bind at 1. unfold lift.
  rewrite getRis_in_range by lia. rewrite Nat2Z.id.
  unfold matches_commitment.
  destruct (nth_error (if side_at P w 0 then leftIdent coin else rightIdent coin) i)
    as [buf|]; [|reflexivity].
  destruct (differs (if side_at P w 0 then nth_error leftHashes i
                     else nth_error rightHashes i) (hash P buf)); reflexivity.
Qed.

(** The loop runs to its end exactly when every pass finds the value on
    the side it drew and finds its hash among the parsed ones. *)
Lemma accept_loop_ok_iff (P : Platform) (coin : Coin)
      (leftHashes rightHashes : list string) (passes : nat) :
  forall (i : nat) (ris : list string) (w : World),
    (i + passes <= COIN_RIS_LENGTH)%nat ->
    (exists ris' w',
        accept_loop P passes i coin leftHashes rightHashes ris w = (Ok ris', w'))
    <-> (forall j, (j < passes)%nat ->
                   matches_commitment P coin leftHashes rightHashes
                                      (side_at P w j) (i + j) = true).
Proof.
  induction passes as [|passes IH]; intros i ris w Hi.
  - split; [intros _ j Hj; lia|]. intros _. now exists ris, w.
  - rewrite accept_loop_step by lia.
    split.
    + intros (ris' & w' & H) j Hj.
      unfold matches_commitment in H |- *.
      destruct (nth_error (if side_at P w 0 then leftIdent coin else rightIdent coin) i)
        as [buf|] eqn:Eb; [|discriminate].
      destruct (differs (if side_at P w 0 then nth_error leftHashes i
                         else nth_error rightHashes i) (hash P buf)) eqn:Ed;
        cbn [negb] in H; [discriminate|].
      destruct j as [|j].
      * rewrite Nat.add_0_r, Eb, Ed. reflexivity.
      * assert (Hrec : exists ris' w',
                   accept_loop P passes (S i) coin leftHashes rightHashes
                               (ris ++ [hex_encode buf]) (journal (EvRandInt 2) w)
                   = (Ok ris', w')) by eauto.
        pose proof (proj1 (IH (S i) _ _ ltac:(lia)) Hrec j ltac:(lia)) as Hj'.
        clear Hrec. rename Hj' into Hrec.
        rewrite side_at_journal in Hrec.
        replace (i + S j)%nat with (S i + j)%nat by lia. exact Hrec.
    + intros H. pose proof (H 0%nat ltac:(lia)) as H0.
      rewrite Nat.add_0_r in H0. rewrite H0.
      unfold matches_commitment in H0.
      destruct (nth_error (if side_at P w 0 then leftIdent coin else rightIdent coin) i)
        as [buf|]; [|discriminate].
      apply (proj2 (IH (S i) _ _ ltac:(lia))). intros j Hj.
      rewrite side_at_journal.
      replace (S i + j)%nat with (i + S j)%nat by lia. apply H. lia.
Qed.

(** The loop stops at the first pass whose test fails, after one draw
    per pass made. *)
Lemma accept_loop_mismatch (P : Platform) (coin : Coin)
      (leftHashes rightHashes : list string) (passes : nat) :
  forall (i k : nat) (ris : list string) (w : World) (buf : Buffer),
    (i + passes <= COIN_RIS_LENGTH)%nat ->
    (k < passes)%nat ->
    (forall j, (j < k)%nat ->
               matches_commitment P coin leftHashes rightHashes
                                  (side_at P w j) (i + j) = true) ->
    nth_error (if side_at P w k then leftIdent coin else rightIdent coin) (i + k)
    = Some buf ->
    matches_commitment P coin leftHashes rightHashes (side_at P w k) (i + k) = false ->
    accept_loop P passes i coin leftHashes rightHashes ris w
    = (Throw ("RIS hash mismatch at position " ++ string_of_Z (Z.of_nat (i + k))),
       (w ++ repeat (EvRandInt 2) (S k))%list).
Proof.
  induction passes as [|passes IH]; intros i k ris w buf Hi Hk Hpre Hbuf Hbad; [lia|].
  rewrite accept_loop_step by lia.
  destruct k as [|k].
  - rewrite Nat.add_0_r in *. rewrite Hbuf, Hbad. reflexivity.
  - pose proof (Hpre 0%nat ltac:(lia)) as H0. rewrite Nat.add_0_r in H0. rewrite H0.
    unfold matches_commitment in H0.
    destruct (nth_error (if side_at P w 0 then leftIdent coin else rightIdent coin) i)
      as [b0|]; [|discriminate].
    rewrite (IH (S i) k _ _ buf); try lia.
    + replace (S i + k)%nat with (i + S k)%nat by lia.
      unfold journal. rewrite <- app_assoc. reflexivity.
    + intros j Hj. rewrite side_at_journal.
      replace (S i + j)%nat with (i + S j)%nat by lia. apply Hpre. lia.
    + rewrite side_at_journal. replace (S i + k)%nat with (i + S k)%nat by lia.
      exact Hbuf.
    + rewrite side_at_journal. replace (S i + k)%nat with (i + S k)%nat by lia.
      exact Hbad.
Qed.

(** A loop that runs to its end has made one draw per pass and added
    one element per pass to the report. *)
Lemma accept_loop_size (P : Platform) (coin : Coin)
      (leftHashes rightHashes : list string) (passes : nat) :
  forall (i : nat) (ris ris' : list string) (w w' : World),
    accept_loop P passes i coin leftHashes rightHashes ris w = (Ok ris', w') ->
    List.length ris' = (List.length ris + passes)%nat /\
    w' = (w ++ repeat (EvRandInt 2) passes)%list.
Proof.
  induction passes as [|passes IH]; intros i ris ris' w w' H.
  - cbn in H. injection H as <- <-. rewrite app_nil_r. split; [lia | reflexivity].
  - cbn [accept_loop] in H. unfold bind at 1 in H. unfold randInt in H.
    unfold bind at 1 in H. unfold lift in H.
    destruct (getRis coin (random_nat P (calls w) mod 2 =? 0)%N (Z.of_nat i))
      as [[buf|]|msg]; try discriminate.
    match type of H with
    | context [differs ?x ?y] => destruct (differs x y)
    end; [discriminate|].
    apply IH in H. destruct H as [Hl ->]. rewrite length_app in Hl. cbn in Hl.
    split; [lia|]. unfold journal. rewrite <- app_assoc. reflexivity.
Qed.

(** For any coin, constructed or not, whose signature verifies and whose
    commitment string parses: [acceptCoin] returns a report exactly when,
    at each of the [K] indices, the value on the side drawn is there and
    hashes to the parsed commitment of that side and index. *)
Theorem acceptCoin_accepts_iff
        (P : Platform) (BANK_N BANK_E : value) (coin : Coin)
        (leftHashes rightHashes : list string) (w : World) :
  bs_verify P (signature coin) BANK_N BANK_E (toString coin) = true ->
  parseCoin (toString coin) = Ok (leftHashes, rightHashes) ->
  ((exists ris w', acceptCoin P BANK_N BANK_E coin w = (Ok ris, w'))
   <-> forall i, (i < COIN_RIS_LENGTH)%nat ->
                 matches_commitment P coin leftHashes rightHashes (side_at P w i) i
                 = true).
Proof.
  intros Hv Hp. unfold acceptCoin. rewrite Hv. cbn [negb].
  unfold bind, lift. rewrite Hp.
  now apply accept_loop_ok_iff.
Qed.

Lemma acceptCoin_accepts_iff_witness :
  matches_commitment
    Toy.platform (Toy.spendable_coin (VStr "alice") (VNum 20))
    (map (hash Toy.platform)
         (leftIdent (Toy.spendable_coin (VStr "alice") (VNum 20))))
    (map (hash Toy.platform)
         (rightIdent (Toy.spendable_coin (VStr "alice") (VNum 20))))
    (side_at Toy.platform [] 5) 5
  = true.
Proof.
  refine (proj1 (@acceptCoin_accepts_iff
                   Toy.platform Toy.BANK_N Toy.BANK_E
                   (Toy.spendable_coin (VStr "alice") (VNum 20)) _ _ [] _ _)
                _ 5%nat _).
  - vm_compute. reflexivity.
  - vm_compute. reflexivity.
  - eexists. eexists. vm_compute. reflexivity.
  - unfold COIN_RIS_LENGTH. lia.
Defined.

(** Tampering is caught where it is looked at: when the tests of the
    indices before [k] pass and the value drawn at [k] does not hash to
    its parsed commitment, [acceptCoin] throws "RIS hash mismatch at
    position k", having made [k + 1] draws. *)
Theorem acceptCoin_first_mismatch
        (P : Platform) (BANK_N BANK_E : value) (coin : Coin)
        (leftHashes rightHashes : list string) (w : World)
        (k : nat) (buf : Buffer) :
  bs_verify P (signature coin) BANK_N BANK_E (toString coin) = true ->
  parseCoin (toString coin) = Ok (leftHashes, rightHashes) ->
  (k < COIN_RIS_LENGTH)%nat ->
  (forall j, (j < k)%nat ->
             matches_commitment P coin leftHashes rightHashes (side_at P w j) j
             = true) ->
  nth_error (if side_at P w k then leftIdent coin else rightIdent coin) k = Some buf ->
  (if side_at P w k then nth_error leftHashes k else nth_error rightHashes k)
  <> Some (hash P buf) ->
  acceptCoin P BANK_N BANK_E coin w
  = (Throw ("RIS hash mismatch at position " ++ string_of_Z (Z.of_nat k)),
     (w ++ repeat (EvRandInt 2) (S k))%list).
Proof.
  intros Hv Hp Hk Hpre Hbuf Hne. unfold acceptCoin. rewrite Hv. cbn [negb].
  unfold bind, lift. rewrite Hp.
  apply (@accept_loop_mismatch P coin leftHashes rightHashes COIN_RIS_LENGTH
                               0 k [] w buf); try assumption; try lia.
  unfold matches_commitment. cbn [Nat.add]. rewrite Hbuf.
  destruct (side_at P w k).
  - destruct (nth_error leftHashes k) as [h|]; [|reflexivity].
    cbn [differs]. destruct (String.eqb_spec h (hash P buf)); [congruence | reflexivity].
  - destruct (nth_error rightHashes k) as [h|]; [|reflexivity].
    cbn [differs]. destruct (String.eqb_spec h (hash P buf)); [congruence | reflexivity].
Qed.

Lemma acceptCoin_first_mismatch_witness :
  acceptCoin Toy.platform Toy.BANK_N Toy.BANK_E
             (Toy.flip_first_left (Toy.spendable_coin (VStr "alice") (VNum 20))) []
  = (Throw "RIS hash mismatch at position 0", [EvRandInt 2]).
Proof.
  refine (@acceptCoin_first_mismatch
            Toy.platform Toy.BANK_N Toy.BANK_E
            (Toy.flip_first_left (Toy.spendable_coin (VStr "alice") (VNum 20)))
            _ _ [] 0%nat _ _ _ _ _ _ _).
  - vm_compute. reflexivity.
  - vm_compute. reflexivity.
  - unfold COIN_RIS_LENGTH. lia.
  - intros j Hj. lia.
  - vm_compute. reflexivity.
  - vm_compute. discriminate.
Defined.

Lemma acceptCoin_ok_inv
      (P : Platform) (BANK_N BANK_E : value) (coin : Coin) (w w' : World)
      (ris : list string) :
  acceptCoin P BANK_N BANK_E coin w = (Ok ris, w') ->
  bs_verify P (signature coin) BANK_N BANK_E (toString coin) = true /\
  List.length ris = COIN_RIS_LENGTH /\
  w' = (w ++ repeat (EvRandInt 2) COIN_RIS_LENGTH)%list.
Proof.
  unfold acceptCoin.
  destruct (bs_verify P (signature coin) BANK_N BANK_E (toString coin));
    cbn [negb]; [|discriminate].
  unfold bind, lift.
  destruct (parseCoin (toString coin)) as [[lh rh]|msg]; [|discriminate].
  intros H. apply accept_loop_size in H. auto.
Qed.

(** Whatever the coin, a report that [acceptCoin] returns has [K]
    elements and cost [K] draws, and a refusal for the signature costs
    none. *)
Theorem acceptCoin_report_size
        (P : Platform) (BANK_N BANK_E : value) (coin : Coin) (w : World) :
  (forall ris w',
      acceptCoin P BANK_N BANK_E coin w = (Ok ris, w') ->
      List.length ris = COIN_RIS_LENGTH /\
      w' = (w ++ repeat (EvRandInt 2) COIN_RIS_LENGTH)%list) /\
  (bs_verify P (signature coin) BANK_N BANK_E (toString coin) = false ->
   acceptCoin P BANK_N BANK_E coin w = (Throw "Invalid coin signature", w)).
Proof.
  split.
  - intros ris w' H. now apply acceptCoin_ok_inv in H.
  - intros Hv. unfold acceptCoin. rewrite Hv. reflexivity.
Qed.

Lemma acceptCoin_report_size_witness :
  acceptCoin Toy.platform Toy.BANK_N Toy.BANK_E
             (Toy.signed_coin (VStr "alice") (VNum 20)) [EvRandInt 2]
  = (Throw "Invalid coin signature", [EvRandInt 2]).
Proof.
  apply (proj2 (@acceptCoin_report_size
                  Toy.platform Toy.BANK_N Toy.BANK_E
                  (Toy.signed_coin (VStr "alice") (VNum 20)) [EvRandInt 2])).
  vm_compute. reflexivity.
Defined.

(* ================================================================== *)
(** * What [determineCheater] concludes, and from what *)
(* ================================================================== *)

Lemma scan_not_merchant (ris1 ris2 : list string) (passes : nat) :
  forall i, scan passes i ris1 ris2 <> MerchantCheated.
Proof.
  induction passes as [|passes IH]; intros i; [discriminate|].
  cbn [scan]. destruct (try_index ris1 ris2 i) as [[|p]|msg];
    [apply IH | discriminate | apply IH].
Qed.

(** The merchant is accused exactly when the two reports are the same
    array of strings: same length, same text at every index. *)
Theorem merchant_accused_iff_identical (guid0 : string) (ris1 ris2 : list string) :
  determineCheater guid0 ris1 ris2 = MerchantCheated <-> ris1 = ris2.
Proof.
  unfold determineCheater.
  destruct (JSON_stringify ris1 =? JSON_stringify ris2) eqn:E.
  - apply JSON_stringify_eqb in E. tauto.
  - split.
    + intros H. now apply scan_not_merchant in H.
    + intros ->. rewrite String.eqb_refl in E. discriminate.
Qed.

Lemma try_index_sym (ris1 ris2 : list string) (i : nat) :
  try_index ris1 ris2 i = try_index ris2 ris1 i.
Proof.
  unfold try_index.
  destruct (nth_error ris1 i) as [s1|], (nth_error ris2 i) as [s2|]; try reflexivity.
  unfold decryptOTP. rewrite (xor_buffers_comm (hex_decode s1) (hex_decode s2)).
  now rewrite Nat.eqb_sym.
Qed.

Lemma scan_sym (ris1 ris2 : list string) (passes : nat) :
  forall i, scan passes i ris1 ris2 = scan passes i ris2 ris1.
Proof.
  induction passes as [|passes IH]; intros i; [reflexivity|].
  cbn [scan]. rewrite try_index_sym, IH. reflexivity.
Qed.

Lemma try_index_past_end (ris1 ris2 : list string) (i : nat) :
  (Nat.min (List.length ris1) (List.length ris2) <= i)%nat ->
  exists msg, try_index ris1 ris2 i = Throw msg.
Proof.
  intros Hi. unfold try_index.
  destruct (nth_error ris1 i) as [s1|] eqn:E1; [|eauto].
  destruct (nth_error ris2 i) as [s2|] eqn:E2; [|eauto].
  assert (i < List.length ris1)%nat by (apply nth_error_Some; congruence).
  assert (i < List.length ris2)%nat by (apply nth_error_Some; congruence).
  lia.
Qed.

(** Only the indices both reports have are looked at. *)
Lemma scan_common_prefix (ris1 ris2 : list string) (passes : nat) :
  forall i,
    (Nat.min (List.length ris1) (List.length ris2) <= i + passes)%nat ->
    scan passes i ris1 ris2
    = scan (Nat.min (List.length ris1) (List.length ris2) - i) i ris1 ris2.
Proof.
  induction passes as [|passes IH]; intros i Hi.
  - replace (Nat.min (List.length ris1) (List.length ris2) - i)%nat with 0%nat by lia.
    reflexivity.
  - destruct (Nat.le_gt_cases (Nat.min (List.length ris1) (List.length ris2)) i)
      as [Hle | Hlt].
    + replace (Nat.min (List.length ris1) (List.length ris2) - i)%nat with 0%nat by lia.
      cbn [scan]. destruct (try_index_past_end ris1 ris2 Hle) as [msg ->].
      rewrite IH by lia.
      replace (Nat.min (List.length ris1) (List.length ris2) - S i)%nat with 0%nat by lia.
      reflexivity.
    + replace (Nat.min (List.length ris1) (List.length ris2) - i)%nat
        with (S (Nat.min (List.length ris1) (List.length ris2) - S i)) by lia.
      cbn [scan]. rewrite IH by lia. reflexivity.
Qed.

Lemma determineCheater_swap (guid0 : string) (ris1 ris2 : list string) :
  determineCheater guid0 ris1 ris2 = determineCheater guid0 ris2 ris1.
Proof.
  unfold determineCheater. rewrite String.eqb_sym.
  destruct (JSON_stringify ris2 =? JSON_stringify ris1); [reflexivity|].
  rewrite (scan_common_prefix ris1 ris2) by lia.
  rewrite (scan_common_prefix ris2 ris1 (List.length ris2)) by lia.
  rewrite Nat.min_comm. apply scan_sym.
Qed.

(** The order of the two reports does not matter: although the first is
    read as keys and the second as ciphertexts, and although the loop
    runs over the length of the first, swapping them gives the same
    conclusion. *)
Theorem determineCheater_order_irrelevant (guid0 : string) (ris1 ris2 : list string) :
  determineCheater guid0 ris1 ris2 = determineCheater guid0 ris2 ris1.
Proof.
  exact (determineCheater_swap guid0 ris1 ris2).
Qed.

(** A purchaser is never accused on the strength of an empty report. *)
Theorem empty_report_accuses_no_purchaser (guid0 : string) (ris1 ris2 : list string) :
  ris1 = [] \/ ris2 = [] ->
  determineCheater guid0 ris1 ris2
  = if (List.length ris1 + List.length ris2 =? 0)%nat then MerchantCheated
    else Undetermined.
Proof.
  assert (Hleft : forall r, determineCheater guid0 [] r
                            = if (List.length r =? 0)%nat then MerchantCheated
                              else Undetermined).
  { intros [|x r]; [reflexivity|].
    unfold determineCheater.
    destruct (JSON_stringify [] =? JSON_stringify (x :: r)) eqn:E; [|reflexivity].
    apply JSON_stringify_eqb in E. discriminate. }
  intros [-> | ->].
  - apply Hleft.
  - rewrite determineCheater_swap, Nat.add_0_r. apply Hleft.
Qed.

Lemma empty_report_accuses_no_purchaser_witness :
  determineCheater "9b1deb4d" ["2a35404b"] [] = Undetermined.
Proof.
  apply (@empty_report_accuses_no_purchaser "9b1deb4d" ["2a35404b"] []).
  right. reflexivity.
Defined.

(* ================================================================== *)
(** * One coin, two merchants *)
(* ================================================================== *)

Lemma forallb_false_exists {A} (f : A -> bool) (l : list A) :
  forallb f l = false -> exists x, In x l /\ f x = false.
Proof.
  induction l as [|x l IH]; [discriminate|].
  cbn [forallb]. destruct (f x) eqn:E.
  - intros H. destruct (IH H) as (y & Hy & Hf). exists y. split; [now right | exact Hf].
  - intros _. exists x. split; [now left | exact E].
Qed.

(** Two disclosures of one coin: the same array when the sides agree at
    every index, and otherwise a pair that unmasks the purchaser. *)
Lemma disclosures_outcome
      (P : Platform) (purchaser : value) (c : Coin) (guid0 : string)
      (side1 side2 : nat -> bool) :
  commits_to P purchaser c ->
  determineCheater guid0 (disclosure c side1) (disclosure c side2)
  = if forallb (fun i => Bool.eqb (side1 i) (side2 i)) (seq 0 COIN_RIS_LENGTH)
    then MerchantCheated
    else PurchaserCheated (up_to_colon (to_string purchaser)).
Proof.
  intros Hcm.
  destruct (forallb (fun i => Bool.eqb (side1 i) (side2 i)) (seq 0 COIN_RIS_LENGTH))
    eqn:E.
  - assert (Heq : disclosure c side1 = disclosure c side2).
    { unfold disclosure. apply map_ext_in. intros i Hi.
      rewrite forallb_forall in E. apply E in Hi. apply Bool.eqb_prop in Hi.
      now rewrite Hi. }
    rewrite Heq. unfold determineCheater. now rewrite String.eqb_refl.
  - apply (@double_spend_unmasks P purchaser c Hcm guid0 side1 side2).
    apply forallb_false_exists in E. destruct E as (i & Hi & Hne).
    apply in_seq in Hi. exists i. split; [lia|].
    intros Heq. rewrite Heq, Bool.eqb_reflx in Hne. discriminate.
Qed.

(** Reconciling two disclosures of a constructed coin never ends
    undetermined.  If the two merchants took the same side at all [K]
    indices the reports are identical and the merchant is accused, so
    that a purchaser who spends twice goes free; if they differ at one
    index or more the purchaser is accused, under the text of the
    purchaser up to its first colon. *)
Theorem two_disclosures_outcome
        (P : Platform) (purchaser amount0 n0 e0 : value) (w w' : World)
        (c0 c : Coin) (guid0 : string) (side1 side2 : nat -> bool) :
  construct P purchaser amount0 n0 e0 w = (Ok c0, w') ->
  evolves P c0 c ->
  determineCheater guid0 (disclosure c side1) (disclosure c side2)
  = if forallb (fun i => Bool.eqb (side1 i) (side2 i)) (seq 0 COIN_RIS_LENGTH)
    then MerchantCheated
    else PurchaserCheated (up_to_colon (to_string purchaser)).
Proof.
  intros Hc Hev. apply construct_ok in Hc. destruct Hc as (Hcm & _).
  apply (@disclosures_outcome P purchaser c guid0 side1 side2).
  exact (evolves_commits Hcm Hev).
Qed.

Lemma two_disclosures_outcome_witness :
  determineCheater "9b1deb4d"
                   (disclosure (Toy.spendable_coin (VStr "alice") (VNum 20))
                               (fun i => Nat.even i))
                   (disclosure (Toy.spendable_coin (VStr "alice") (VNum 20))
                               (fun i => Nat.even i || (i =? 7)%nat))
  = PurchaserCheated (Some "alice").
Proof.
  rewrite (@two_disclosures_outcome
             Toy.platform (VStr "alice") (VNum 20) Toy.BANK_N Toy.BANK_E []
             (snd (Toy.built (VStr "alice") (VNum 20)))
             (Toy.fresh_coin (VStr "alice") (VNum 20))
             (Toy.spendable_coin (VStr "alice") (VNum 20))).
  - reflexivity.
  - vm_compute. reflexivity.
  - apply evolves_unblinded with (c := Toy.signed_coin (VStr "alice") (VNum 20)).
    + apply evolves_signed, evolves_built.
    + vm_compute. reflexivity.
Defined.

(** The scheme end to end.  A coin is constructed for a purchaser whose
    name holds no colon, it verifies and its fields are free of the
    delimiters; two merchants accept it, in any two worlds whose draws
    differ at some index.  Then both get a report and
    [determineCheater] names the purchaser. *)
Theorem double_spend_detected
        (P : Platform) (BANK_N BANK_E : value) (p : string)
        (amount0 n0 e0 : value) (w0 w0' w1 w2 : World) (c0 c : Coin) :
  construct P (VStr p) amount0 n0 e0 w0 = (Ok c0, w0') ->
  evolves P c0 c ->
  bs_verify P (signature c) BANK_N BANK_E (toString c) = true ->
  delimiter_free P c = true ->
  occurs ":" p = false ->
  (exists i, (i < COIN_RIS_LENGTH)%nat /\ side_at P w1 i <> side_at P w2 i) ->
  exists ris1 ris2,
    fst (acceptCoin P BANK_N BANK_E c w1) = Ok ris1 /\
    fst (acceptCoin P BANK_N BANK_E c w2) = Ok ris2 /\
    determineCheater (guid c) ris1 ris2 = PurchaserCheated (Some p).
Proof.
  intros Hc Hev Hv Hfree Hp Hd.
  pose proof (@acceptCoin_disclosure P BANK_N BANK_E (VStr p) amount0 n0 e0
                                     w0 w0' w1 c0 c Hc Hev Hv Hfree) as H1.
  pose proof (@acceptCoin_disclosure P BANK_N BANK_E (VStr p) amount0 n0 e0
                                     w0 w0' w2 c0 c Hc Hev Hv Hfree) as H2.
  eexists. eexists. split; [exact H1|]. split; [exact H2|].
  exact (@double_spend_names_purchaser P p amount0 n0 e0 w0 w0' c0 c (guid c)
                                       (side_at P w1) (side_at P w2) Hc Hev Hp Hd).
Qed.

Lemma double_spend_detected_witness :
  exists ris1 ris2,
    fst (acceptCoin Toy.platform Toy.BANK_N Toy.BANK_E
                    (Toy.spendable_coin (VStr "alice") (VNum 20)) []) = Ok ris1 /\
    fst (acceptCoin Toy.platform Toy.BANK_N Toy.BANK_E
                    (Toy.spendable_coin (VStr "alice") (VNum 20))
                    (repeat (EvRandInt 2) 20)) = Ok ris2 /\
    determineCheater (guid (Toy.spendable_coin (VStr "alice") (VNum 20))) ris1 ris2
    = PurchaserCheated (Some "alice").
Proof.
  apply (@double_spend_detected
           Toy.platform Toy.BANK_N Toy.BANK_E "alice" (VNum 20)
           Toy.BANK_N Toy.BANK_E []
           (snd (Toy.built (VStr "alice") (VNum 20)))
           [] (repeat (EvRandInt 2) 20)
           (Toy.fresh_coin (VStr "alice") (VNum 20))
           (Toy.spendable_coin (VStr "alice") (VNum 20))).
  - vm_compute. reflexivity.
  - apply evolves_unblinded with (c := Toy.signed_coin (VStr "alice") (VNum 20)).
    + apply evolves_signed, evolves_built.
    + vm_compute. reflexivity.
  - vm_compute. reflexivity.
  - vm_compute. reflexivity.
  - reflexivity.
  - exists 0%nat. split; [unfold COIN_RIS_LENGTH; lia|]. vm_compute. discriminate.
Defined.

(* ================================================================== *)
(** * What one report shows *)
(* ================================================================== *)






(* ================================================================== *)
(** * The demo *)
(* ================================================================== *)

Lemma construct_falsy
      (P : Platform) (purchaser amount0 n0 e0 : value) (w : World) :
  negb (truthy purchaser) || negb (truthy amount0)
  || negb (truthy n0) || negb (truthy e0) = true ->
  construct P purchaser amount0 n0 e0 w
  = (Throw "Missing required coin parameters", w).
Proof.
  intros H. unfold construct. rewrite H. reflexivity.
Qed.

Lemma construct_ok_calls
      (P : Platform) (purchaser amount0 n0 e0 : value) (w w' : World) (c : Coin) :
  construct P purchaser amount0 n0 e0 w = (Ok c, w') ->
  calls w' = (calls w + 22)%nat.
Proof.
  intros H.
  destruct (negb (truthy purchaser) || negb (truthy amount0)
            || negb (truthy n0) || negb (truthy e0)) eqn:E.
  - rewrite (construct_falsy P purchaser amount0 n0 e0 w E) in H. discriminate H.
  - apply orb_false_iff in E. destruct E as [E He].
    apply orb_false_iff in E. destruct E as [E Hn].
    apply orb_false_iff in E. destruct E as [Hp Ha].
    apply negb_false_iff in Hp, Ha, Hn, He.
    rewrite (construct_closed_form P purchaser amount0 n0 e0 w Hp Ha Hn He) in H.
    cbv zeta in H.
    assert (Hlen : forall message,
               calls (journal_of_constructor purchaser message w) = (calls w + 22)%nat).
    { intros message. unfold calls, journal_of_constructor, COIN_RIS_LENGTH.
      rewrite length_app. cbn [List.length]. rewrite length_app, repeat_length.
      cbn [List.length]. lia. }
    match type of H with
    | context [bs_blind P ?t ?m n0 e0] => destruct (bs_blind P t m n0 e0) as [[b r]|msg]
    end; [|discriminate H].
    destruct (truthy b && truthy r); [|discriminate H].
    injection H as _ <-. apply Hlen.
Qed.

Lemma side_at_shift (P : Platform) (w w1 : World) (k i : nat) :
  calls w1 = (calls w + k)%nat -> side_at P w1 i = side_at P w (k + i).
Proof.
  intros H. unfold side_at. rewrite H. now rewrite Nat.add_assoc.
Qed.

Lemma forallb_pointwise {A} (f g : A -> bool) (l : list A) :
  (forall x, f x = g x) -> forallb f l = forallb g l.
Proof.
  intros H. induction l as [|x l IH]; [reflexivity|].
  cbn [forallb]. now rewrite H, IH.
Qed.

Lemma delimiter_free_intro (P : Platform) (c : Coin) :
  occurs "-" (to_string (amount c)) = false ->
  occurs "-" (guid c) = false ->
  (forall buf, occurs "-" (hash P buf) = false /\ occurs "," (hash P buf) = false) ->
  delimiter_free P c = true.
Proof.
  intros Ha Hg Hh. unfold delimiter_free. rewrite Ha, Hg. cbn [negb andb].
  apply forallb_forall. intros buf _. destruct (Hh buf) as [-> ->]. reflexivity.
Qed.

(** The script at the end of [driver.js], when it runs through with a
    guid and hashes free of the delimiters, logs three lines.  The last
    always accuses the merchant.  The first accuses alice, unless the
    second merchant drew the same side as the first at all [K] indices:
    then it accuses the merchant too.  The draws are calls 22 to 41 and
    42 to 61 of the run, after the guid, the [K] pads and the blinding. *)
Theorem demo_output
        (P : Platform) (BANK_N BANK_E : value) (bs_sign : value -> result value)
        (w w' : World) (lines : list string) :
  demo P BANK_N BANK_E bs_sign w = (Ok lines, w') ->
  occurs "-" (random_guid P (calls w)) = false ->
  (forall buf, occurs "-" (hash P buf) = false /\ occurs "," (hash P buf) = false) ->
  lines
  = [ (if forallb (fun i => Bool.eqb (side_at P w (22 + i)) (side_at P w (42 + i)))
                  (seq 0 COIN_RIS_LENGTH)
       then "Coin " ++ random_guid P (calls w) ++ ": Merchant is cheating!"
       else "Coin " ++ random_guid P (calls w) ++ ": Purchaser alice is cheating!");
      "";
      "Coin " ++ random_guid P (calls w) ++ ": Merchant is cheating!" ].
Proof.
  intros H Hguid Hhash. unfold demo in H.
  unfold bind at 1 in H.
  destruct (construct P (VStr "alice") (VNum 20) BANK_N BANK_E w)
    as [[c0|msg] w1] eqn:Hc; [|discriminate].
  unfold bind at 1 in H. unfold lift at 1 in H.
  destruct (signCoin bs_sign (blinded c0)) as [s|msg]; [|discriminate].
  unfold bind at 1 in H. unfold lift at 1 in H.
  destruct (unblind P (set_signature s c0)) as [c|msg] eqn:Hu; [|discriminate].
  unfold bind at 1 in H.
  destruct (acceptCoin P BANK_N BANK_E c w1) as [[ris1|msg] w2] eqn:H1; [|discriminate].
  unfold bind at 1 in H.
  destruct (acceptCoin P BANK_N BANK_E c w2) as [[ris2|msg] w3] eqn:H2; [|discriminate].
  unfold ret in H. injection H as <- _.
  assert (Hev : evolves P c0 c).
  { apply evolves_unblinded with (c := set_signature s c0); [|exact Hu].
    apply evolves_signed, evolves_built. }
  pose proof (@construct_ok_calls P _ _ _ _ _ _ _ Hc) as Hw1.
  destruct (@acceptCoin_ok_inv P BANK_N BANK_E c w1 w2 ris1 H1) as (Hv & _ & Hw2).
  assert (Hw2' : calls w2 = (calls w + 42)%nat).
  { rewrite Hw2. unfold calls in *. rewrite length_app, repeat_length, Hw1.
    unfold COIN_RIS_LENGTH. lia. }
  pose proof (@construct_ok P _ _ _ _ _ _ _ Hc) as (Hcm & Ham & _ & _ & Hg & _).
  pose proof (@evolves_frame P c0 c Hev) as (Ha' & _ & _ & Hg' & _).
  assert (Hfree : delimiter_free P c = true).
  { apply delimiter_free_intro; [| |exact Hhash].
    - rewrite Ha', Ham. reflexivity.
    - now rewrite Hg', Hg. }
  pose proof (@acceptCoin_disclosure P BANK_N BANK_E (VStr "alice") (VNum 20)
                                     BANK_N BANK_E w w1 w1 c0 c Hc Hev Hv Hfree) as D1.
  pose proof (@acceptCoin_disclosure P BANK_N BANK_E (VStr "alice") (VNum 20)
                                     BANK_N BANK_E w w1 w2 c0 c Hc Hev Hv Hfree) as D2.
  rewrite H1 in D1. rewrite H2 in D2. cbn [fst] in D1, D2.
  injection D1 as ->. injection D2 as ->.
  fold (side_at P w1). fold (side_at P w2).
  rewrite (@disclosures_outcome P (VStr "alice") c (guid c)
                                (side_at P w1) (side_at P w2)
                                (@evolves_commits P _ c0 c Hcm Hev)).
  rewrite (forallb_pointwise
             (fun i => Bool.eqb (side_at P w1 i) (side_at P w2 i))
             (fun i => Bool.eqb (side_at P w (22 + i)) (side_at P w (42 + i)))).
  2:{ intros i. now rewrite (@side_at_shift P w w1 22 i Hw1),
                            (@side_at_shift P w w2 42 i Hw2'). }
  assert (Hself : determineCheater (guid c)
                                   (disclosure c (side_at P w1))
                                   (disclosure c (side_at P w1))
                  = MerchantCheated).
  { unfold determineCheater. now rewrite String.eqb_refl. }
  rewrite Hself, Hg', Hg.
  destruct (forallb (fun i => Bool.eqb (side_at P w (22 + i)) (side_at P w (42 + i)))
                    (seq 0 COIN_RIS_LENGTH)); reflexivity.
Qed.

Lemma hex_pair_clean (c : ascii) :
  (hex_digit (N_of_ascii c / 16) =? "-")%char = false /\
  (hex_digit (N_of_ascii c mod 16) =? "-")%char = false /\
  (hex_digit (N_of_ascii c / 16) =? ",")%char = false /\
  (hex_digit (N_of_ascii c mod 16) =? ",")%char = false.
Proof.
  destruct c as [[] [] [] [] [] [] [] []]; vm_compute; auto.
Qed.

(** The hexadecimal form of a buffer holds neither delimiter. *)
Lemma hex_encode_clean (b : Buffer) :
  occurs "-" (hex_encode b) = false /\ occurs "," (hex_encode b) = false.
Proof.
  induction b as [|c b [IH1 IH2]]; [split; reflexivity|].
  destruct (hex_pair_clean c) as (H1 & H2 & H3 & H4).
  cbn [hex_encode occurs]. rewrite H1, H2, H3, H4, IH1, IH2. split; reflexivity.
Qed.

Lemma demo_output_witness :
  fst (demo Toy.platform Toy.BANK_N Toy.BANK_E (fun b => Ok (Toy.signCoin b)) [])
  = Ok ["Coin 9b1deb4d3b7d4bad9bdd2b0d7b3dcb6d: Purchaser alice is cheating!";
        "";
        "Coin 9b1deb4d3b7d4bad9bdd2b0d7b3dcb6d: Merchant is cheating!"].
Proof.
  destruct (demo Toy.platform Toy.BANK_N Toy.BANK_E (fun b => Ok (Toy.signCoin b)) [])
    as [[lines|msg] w'] eqn:E.
  - rewrite (@demo_output Toy.platform Toy.BANK_N Toy.BANK_E
                          (fun b => Ok (Toy.signCoin b)) [] w' lines E).
    + vm_compute. reflexivity.
    + reflexivity.
    + intros buf. apply hex_encode_clean.
  - vm_compute in E. discriminate E.
Defined.

(* ================================================================== *)
(** * [unblind()] and the coin it leaves *)
(* ================================================================== *)

(** [unblind()] as a method agrees with its functional reading: the same
    successes with the same coin, the same errors.  When the library
    answers with an empty value the call throws "Unblinding failed:
    Unblinding failed", but the empty value is already stored: the
    blinded signature is lost, and a second call stops at the guard with
    "Unblinding failed: No signature to unblind". *)
Theorem failed_unblind_erases_signature (P : Platform) (c : Coin) :
  (forall c', unblind P c = Ok c' <-> unblind_method P c = (Ok tt, c')) /\
  (forall msg, unblind P c = Throw msg <-> fst (unblind_method P c) = Throw msg) /\
  (forall s,
      truthy (signature c) = true ->
      bs_unblind P (signature c) (n c) (blindingFactor c) = Ok s ->
      truthy s = false ->
      unblind_method P c
      = (Throw "Unblinding failed: Unblinding failed", set_signature s c) /\
      unblind_method P (set_signature s c)
      = (Throw "Unblinding failed: No signature to unblind", set_signature s c)).
Proof.
  split; [|split].
  - intros c'. unfold unblind, unblind_method.
    destruct (truthy (signature c)); cbn [negb].
    + destruct (bs_unblind P (signature c) (n c) (blindingFactor c)) as [s|msg].
      * destruct (truthy s); cbn [negb]; split; intros H;
          try discriminate; injection H as <-; reflexivity.
      * split; discriminate.
    + split; discriminate.
  - intros msg. unfold unblind, unblind_method.
    destruct (truthy (signature c)); cbn [negb].
    + destruct (bs_unblind P (signature c) (n c) (blindingFactor c)) as [s|m].
      * destruct (truthy s); cbn [negb fst]; split; intros H;
          try discriminate; injection H as <-; reflexivity.
      * cbn [fst]. split; intros H; injection H as <-; reflexivity.
    + cbn [fst]. split; intros H; injection H as <-; reflexivity.
  - intros s Ht Hs Hf. unfold unblind_method.
    rewrite Ht, Hs, Hf. cbn [negb set_signature signature]. rewrite Hf. auto.
Qed.

Lemma failed_unblind_erases_signature_witness :
  unblind_method Toy.mute_platform (Toy.signed_coin (VStr "alice") (VNum 20))
  = (Throw "Unblinding failed: Unblinding failed",
     set_signature VUndefined (Toy.signed_coin (VStr "alice") (VNum 20))) /\
  unblind_method Toy.mute_platform
                 (set_signature VUndefined (Toy.signed_coin (VStr "alice") (VNum 20)))
  = (Throw "Unblinding failed: No signature to unblind",
     set_signature VUndefined (Toy.signed_coin (VStr "alice") (VNum 20))).
Proof.
  apply (proj2 (proj2 (@failed_unblind_erases_signature
                         Toy.mute_platform
                         (Toy.signed_coin (VStr "alice") (VNum 20))))).
  - vm_compute. reflexivity.
  - reflexivity.
  - reflexivity.
Defined.

(* ================================================================== *)
(** * Every pair holds the identity *)
(* ================================================================== *)

(** On a constructed coin, at any later point of its life, both values
    of every index are there, they have one length, and decrypting the
    right one with the left one gives the text IDENT:purchaser: each of
    the [K] pairs determines the identity on its own. *)
Theorem every_pair_decrypts
        (P : Platform) (purchaser amount0 n0 e0 : value) (w w' : World)
        (c0 c : Coin) (i : nat) :
  construct P purchaser amount0 n0 e0 w = (Ok c0, w') ->
  evolves P c0 c ->
  (i < COIN_RIS_LENGTH)%nat ->
  exists left right : Buffer,
    getRis c true (Z.of_nat i) = Ok (Some left) /\
    getRis c false (Z.of_nat i) = Ok (Some right) /\
    List.length left = List.length right /\
    decryptOTP left right = IDENT_STR ++ ":" ++ to_string purchaser.
Proof.
  intros Hc Hev Hi. apply construct_ok in Hc. destruct Hc as (Hcm & _).
  pose proof (evolves_commits Hcm Hev) as Hcm'.
  destruct (commits_lengths Hcm') as [Hl Hr].
  exists (nth i (leftIdent c) []), (nth i (rightIdent c) []).
  rewrite !getRis_in_range by lia. rewrite Nat2Z.id.
  assert (Hil : (i < List.length (leftIdent c))%nat) by lia.
  assert (Hir : (i < List.length (rightIdent c))%nat) by lia.
  rewrite (nth_error_nth' (leftIdent c) [] Hil).
  rewrite (nth_error_nth' (rightIdent c) [] Hir).
  split; [reflexivity|]. split; [reflexivity|].
  pose proof (@left_key_length P purchaser c Hcm' i Hi) as Hlen.
  rewrite (@right_is_pad P purchaser c Hcm' i).
  split.
  - rewrite xor_buffers_length; [now rewrite Hlen | now symmetry].
  - unfold decryptOTP. rewrite xor_buffers_cancel by assumption.
    unfold identity_plaintext, Buffer_toString, Buffer_from.
    apply string_of_list_ascii_of_string.
Qed.

Lemma every_pair_decrypts_witness :
  exists left right : Buffer,
    getRis (Toy.spendable_coin (VStr "alice") (VNum 20)) true 19 = Ok (Some left) /\
    getRis (Toy.spendable_coin (VStr "alice") (VNum 20)) false 19 = Ok (Some right) /\
    List.length left = List.length right /\
    decryptOTP left right = "IDENT:alice".
Proof.
  apply (@every_pair_decrypts
           Toy.platform (VStr "alice") (VNum 20) Toy.BANK_N Toy.BANK_E []
           (snd (Toy.built (VStr "alice") (VNum 20)))
           (Toy.fresh_coin (VStr "alice") (VNum 20))
           (Toy.spendable_coin (VStr "alice") (VNum 20)) 19).
  - vm_compute. reflexivity.
  - apply evolves_unblinded with (c := Toy.signed_coin (VStr "alice") (VNum 20)).
    + apply evolves_signed, evolves_built.
    + vm_compute. reflexivity.
  - unfold COIN_RIS_LENGTH. lia.
Defined.

(* ================================================================== *)
(** * Replays that are not letter for letter *)
(* ================================================================== *)

Lemma scan_no_return (ris1 ris2 : list string) (passes : nat) :
  forall i,
    (forall j p, try_index ris1 ris2 j <> Ok (Return p)) ->
    scan passes i ris1 ris2 = Undetermined.
Proof.
  induction passes as [|passes IH]; intros i H; [reflexivity|].
  cbn [scan]. destruct (try_index ris1 ris2 i) as [[|p]|msg] eqn:E.
  - now apply IH.
  - now apply H in E.
  - now apply IH.
Qed.

(** Two reports that differ as text but decode to the same bytes at
    every index, such as a report and its copy in upper-case digits, are
    not taken for a replay and accuse nobody: the outcome is
    [Undetermined]. *)
Theorem same_bytes_other_text_undetermined
        (guid0 : string) (ris1 ris2 : list string) :
  ris1 <> ris2 ->
  map hex_decode ris1 = map hex_decode ris2 ->
  determineCheater guid0 ris1 ris2 = Undetermined.
Proof.
  intros Hne Hsame. unfold determineCheater.
  destruct (JSON_stringify ris1 =? JSON_stringify ris2) eqn:E.
  - apply JSON_stringify_eqb in E. contradiction.
  - apply scan_no_return. intros j p Hr.
    apply try_index_returns in Hr.
    destruct Hr as (s1 & s2 & H1 & H2 & _ & Hs & _).
    apply (f_equal (fun l => nth_error l j)) in Hsame.
    rewrite !nth_error_map, H1, H2 in Hsame. cbn in Hsame.
    injection Hsame as Hsame. rewrite <- Hsame in Hs.
    unfold decryptOTP in Hs.
    rewrite xor_buffers_self, not_startsWith_zeros in Hs. discriminate.
Qed.

Lemma same_bytes_other_text_undetermined_witness :
  determineCheater "9b1deb4d" ["2a35404b"] ["2A35404B"] = Undetermined.
Proof.
  apply same_bytes_other_text_undetermined.
  - discriminate.
  - reflexivity.
Defined.
